(** * Outlier filters of [outliers_lib/find_outliers.py]

    A shallow embedding of the three functions [find_outliers_iqr],
    [find_outliers_z_score] and [find_outliers_quantile], together with the
    part of pandas and numpy they call: column lookup [data[feature]],
    element-wise arithmetic and comparison of a Series with a scalar,
    [Series.quantile], [Series.mean], [Series.std], [np.log] and
    boolean-mask indexing [data[mask]].

    Numbers.  A float64 is modelled by [float64]: an exact rational, or one
    of the three special values NaN, -inf, +inf with their IEEE 754
    arithmetic and comparisons (every comparison with NaN is false).
    Rounding, overflow of finite results and signed zeros are not
    modelled, and sums are exact whatever their order.  The theorems are
    therefore stated over the values a call computes (its quartiles, its
    interquartile range, its bounds), with the conditions they need on
    those values written as hypotheses, rather than over what exact
    arithmetic would make of the data.  The two irrational library
    functions, the natural logarithm on positive numbers and the square
    root on non-negative numbers, are parameters [ln] and [sqrt] of the
    development; what [np.log] and [Series.std] do around them (domain,
    special values, missing data) is written out.

    Frames.  A DataFrame is a list of column labels and a list of rows;
    a row carries its index label and one float64 cell per column, NaN
    standing for a missing value.  Column labels are taken to be pairwise
    distinct, so that [data[feature]] is a Series.

    Errors.  A Python exception is an [Err] result; the two that these
    functions can meet on numeric frames are KeyError (unknown column) and
    ValueError (quantile probability outside [0, 1]).  The warnings numpy
    emits for [log] of a non-positive number are not exceptions and are
    not modelled. *)

From Stdlib Require Import List String ZArith QArith Qround Lqa Lia Bool Sorted
  Permutation.
Import ListNotations.

Local Open Scope string_scope.
Local Open Scope Q_scope.

(** ** Python exceptions as an error monad *)

Inductive error : Type :=
| KeyError (key : string)      (* [data[feature]] with an unknown column *)
| ValueError.                  (* [Series.quantile] with q outside [0, 1] *)

Inductive result (A : Type) : Type :=
| Ok (a : A)
| Err (e : error).

Arguments Ok {A} a.
Arguments Err {A} e.

Definition bind {A B : Type} (r : result A) (k : A -> result B) : result B :=
  match r with
  | Ok a => k a
  | Err e => Err e
  end.

Notation "x <- r ;; k" := (bind r (fun x => k))
  (at level 61, r at next level, right associativity).

(** ** float64 values *)

Inductive float64 : Type :=
| NaN
| NegInf
| Fin (q : Q)
| PosInf.

Definition Qltb (p q : Q) : bool :=
  match p ?= q with
  | Lt => true
  | _ => false
  end.

Definition fneg (a : float64) : float64 :=
  match a with
  | NaN => NaN
  | NegInf => PosInf
  | Fin q => Fin (- q)
  | PosInf => NegInf
  end.

Definition fadd (a b : float64) : float64 :=
  match a, b with
  | NaN, _ | _, NaN => NaN
  | PosInf, NegInf | NegInf, PosInf => NaN
  | PosInf, _ | _, PosInf => PosInf
  | NegInf, _ | _, NegInf => NegInf
  | Fin p, Fin q => Fin (p + q)
  end.

Definition fsub (a b : float64) : float64 := fadd a (fneg b).

(** The product of an infinity with a finite number takes the sign of the
    number; with zero it is NaN. *)
Definition inf_times (positive : bool) (q : Q) : float64 :=
  match q ?= 0 with
  | Eq => NaN
  | Gt => if positive then PosInf else NegInf
  | Lt => if positive then NegInf else PosInf
  end.

Definition fmul (a b : float64) : float64 :=
  match a, b with
  | NaN, _ | _, NaN => NaN
  | Fin p, Fin q => Fin (p * q)
  | PosInf, Fin q | Fin q, PosInf => inf_times true q
  | NegInf, Fin q | Fin q, NegInf => inf_times false q
  | PosInf, PosInf | NegInf, NegInf => PosInf
  | PosInf, NegInf | NegInf, PosInf => NegInf
  end.

(** Division by a positive count, the only division the code performs. *)
Definition fdivn (a : float64) (n : nat) : float64 :=
  match a with
  | Fin p => Fin (p / inject_Z (Z.of_nat n))
  | _ => a
  end.

(** [a < b]; false as soon as one side is NaN. *)
Definition fltb (a b : float64) : bool :=
  match a, b with
  | NaN, _ | _, NaN => false
  | _, NegInf => false
  | NegInf, _ => true
  | PosInf, _ => false
  | Fin _, PosInf => true
  | Fin p, Fin q => Qltb p q
  end.

(** [a > b] *)
Definition fgtb (a b : float64) : bool := fltb b a.

(** [a <= b]; false as soon as one side is NaN. *)
Definition fleb (a b : float64) : bool :=
  match a, b with
  | NaN, _ | _, NaN => false
  | NegInf, _ => true
  | _, PosInf => true
  | _, NegInf => false
  | PosInf, _ => false
  | Fin p, Fin q => Qle_bool p q
  end.

(** [a == b] on numbers: NaN equals nothing, not even itself. *)
Definition feqb (a b : float64) : bool :=
  match a, b with
  | NegInf, NegInf | PosInf, PosInf => true
  | Fin p, Fin q => Qeq_bool p q
  | _, _ => false
  end.

Definition isnan (a : float64) : bool :=
  match a with
  | NaN => true
  | _ => false
  end.

Definition isfinite (a : float64) : bool :=
  match a with
  | Fin _ => true
  | _ => false
  end.

(** ** pandas: Series and DataFrame *)

Definition Series : Type := list float64.

(** A row carries its index label and one cell per column. *)
Record Row : Type := mkRow { label : Z; cells : list float64 }.

Record DataFrame : Type := mkDataFrame { columns : list string; rows : list Row }.

Fixpoint index_of (name : string) (cols : list string) : option nat :=
  match cols with
  | [] => None
  | c :: cols' =>
      if String.eqb name c then Some O
      else match index_of name cols' with
           | Some j => Some (S j)
           | None => None
           end
  end.

(** [data[feature]]: KeyError when the frame has no such column. *)
Definition getitem (data : DataFrame) (feature : string) : result Series :=
  match index_of feature (columns data) with
  | None => Err (KeyError feature)
  | Some j => Ok (map (fun r => nth j (cells r) NaN) (rows data))
  end.

(** [data[mask]]: the rows whose mask entry is True, in order, under the
    same columns. *)
Fixpoint select_rows (rs : list Row) (mask : list bool) : list Row :=
  match rs, mask with
  | r :: rs', m :: mask' =>
      if m then r :: select_rows rs' mask' else select_rows rs' mask'
  | _, _ => []
  end.

Definition boolean_index (data : DataFrame) (mask : list bool) : DataFrame :=
  mkDataFrame (columns data) (select_rows (rows data) mask).

(** Element-wise operations of a Series with a scalar, and of two masks. *)
Definition series_add (x : Series) (c : float64) : Series := map (fun v => fadd v c) x.
Definition series_lt (x : Series) (c : float64) : list bool := map (fun v => fltb v c) x.
Definition series_gt (x : Series) (c : float64) : list bool := map (fun v => fgtb v c) x.

Fixpoint mask_or (m1 m2 : list bool) : list bool :=
  match m1, m2 with
  | a :: m1', b :: m2' => (a || b)%bool :: mask_or m1' m2'
  | _, _ => []
  end.

Fixpoint mask_and (m1 m2 : list bool) : list bool :=
  match m1, m2 with
  | a :: m1', b :: m2' => (a && b)%bool :: mask_and m1' m2'
  | _, _ => []
  end.

(** ** pandas: reductions of a Series (missing values skipped) *)

Definition dropna (x : Series) : Series := filter (fun v => negb (isnan v)) x.

Fixpoint insert_sorted (v : float64) (s : Series) : Series :=
  match s with
  | [] => [v]
  | w :: s' => if fleb v w then v :: s else w :: insert_sorted v s'
  end.

Fixpoint sort_values (x : Series) : Series :=
  match x with
  | [] => []
  | v :: x' => insert_sorted v (sort_values x')
  end.

(** Linear interpolation as numpy's [_lerp] computes it:
    [i + (j - i) * fraction], and [j - (j - i) * (1 - fraction)] where
    [fraction >= 0.5]. The two agree on real numbers and differ on
    infinities. *)
Definition lerp (i j : float64) (fraction : Q) : float64 :=
  if Qle_bool (1 # 2) fraction
  then fsub j (fmul (fsub j i) (Fin (1 - fraction)))
  else fadd i (fmul (fsub j i) (Fin fraction)).

(** The percentile of a sorted, non-empty array of [n] values at
    probability [p]: the virtual index is [(n - 1) * p], its floor and the
    next position (clipped to the last one) give the two neighbours. *)
Definition percentile_linear (s : Series) (p : Q) : float64 :=
  let n := List.length s in
  let virtual_index := inject_Z (Z.of_nat (n - 1)) * p in
  let previous := Z.to_nat (Qfloor virtual_index) in
  let next := Nat.min (previous + 1) (n - 1) in
  let gamma := virtual_index - inject_Z (Qfloor virtual_index) in
  lerp (nth previous s NaN) (nth next s NaN) gamma.

(** pandas checks [0 <= q <= 1] before anything else. *)
Definition validate_percentile (q : float64) : result Q :=
  match q with
  | Fin p => if (Qle_bool 0 p && Qle_bool p 1)%bool then Ok p else Err ValueError
  | _ => Err ValueError
  end.

(** The percentile of the values that are not missing; NaN when there are
    none. *)
Definition nanpercentile (x : Series) (p : Q) : float64 :=
  match dropna x with
  | [] => NaN
  | v :: vs => percentile_linear (sort_values (v :: vs)) p
  end.

(** [x.quantile(q)], interpolation='linear'. *)
Definition quantile (x : Series) (q : float64) : result float64 :=
  p <- validate_percentile q ;;
  Ok (nanpercentile x p).

Definition fsum (x : Series) : float64 := fold_left fadd x (Fin 0).

(** [x.mean()] *)
Definition mean (x : Series) : float64 :=
  match dropna x with
  | [] => NaN
  | v :: vs => fdivn (fsum (v :: vs)) (List.length (v :: vs))
  end.

(** [x.var()] with ddof=1: NaN unless there are at least two values. *)
Definition var (x : Series) : float64 :=
  let values := dropna x in
  let count := List.length values in
  if (count <=? 1)%nat then NaN
  else
    let avg := fdivn (fsum values) count in
    let sqr := map (fun v => fmul (fsub avg v) (fsub avg v)) values in
    fdivn (fsum sqr) (count - 1).

Section Library.

(** The natural logarithm on positive rationals and the square root on
    non-negative rationals, as numpy computes them. *)
Variable ln : Q -> Q.
Variable sqrt : Q -> Q.

(** [np.log] on one value: NaN below zero, -inf at zero. *)
Definition np_log (a : float64) : float64 :=
  match a with
  | NaN => NaN
  | NegInf => NaN
  | PosInf => PosInf
  | Fin q =>
      match q ?= 0 with
      | Lt => NaN
      | Eq => NegInf
      | Gt => Fin (ln q)
      end
  end.

Definition series_log (x : Series) : Series := map np_log x.

Definition np_sqrt (a : float64) : float64 :=
  match a with
  | NaN => NaN
  | NegInf => NaN
  | PosInf => PosInf
  | Fin q => if Qltb q 0 then NaN else Fin (sqrt q)
  end.

(** [x.std()] with ddof=1 *)
Definition std (x : Series) : float64 := np_sqrt (var x).

(** ** The three functions of find_outliers.py

    Each function is written in two steps: [*_locals] runs the body and
    keeps the local variables the properties talk about, and the function
    itself returns the pair [outliers, cleaned] of that run. *)

(** The local variables of one call: the series [x], the two bounds and
    the two frames. *)
Record locals : Type := mkLocals {
  loc_x : Series;
  lower_bound : float64;
  upper_bound : float64;
  outliers : DataFrame;
  cleaned : DataFrame
}.

(** Lines 21-24 and 50-53: [np.log(data[feature] + 1)] or [data[feature]]. *)
Definition feature_values (data : DataFrame) (feature : string) (log_scale : bool)
  : result Series :=
  if log_scale then
    col <- getitem data feature ;;
    Ok (series_log (series_add col (Fin 1)))
  else
    getitem data feature.

(** Lines 29-30, 58-59 and 97-98: the two masks and the two frames. *)
Definition partition (data : DataFrame) (x : Series) (lower upper : float64) : locals :=
  let outliers := boolean_index data (mask_or (series_lt x lower) (series_gt x upper)) in
  let cleaned := boolean_index data (mask_and (series_gt x lower) (series_lt x upper)) in
  mkLocals x lower upper outliers cleaned.

(** Line 25: [x.quantile(0.25), x.quantile(0.75)]. *)
Definition quartiles (x : Series) : result (float64 * float64) :=
  quartile_1 <- quantile x (Fin (1 # 4)) ;;
  quartile_3 <- quantile x (Fin (3 # 4)) ;;
  Ok (quartile_1, quartile_3).

(** Lines 21-31. *)
Definition iqr_locals (data : DataFrame) (feature : string) (left right : float64)
  (log_scale : bool) : result locals :=
  x <- feature_values data feature log_scale ;;
  qs <- quartiles x ;;
  let quartile_1 := fst qs in
  let quartile_3 := snd qs in
  let iqr := fsub quartile_3 quartile_1 in
  let lower_bound := fsub quartile_1 (fmul iqr left) in
  let upper_bound := fadd quartile_3 (fmul iqr right) in
  Ok (partition data x lower_bound upper_bound).

Definition find_outliers_iqr (data : DataFrame) (feature : string) (left right : float64)
  (log_scale : bool) : result (DataFrame * DataFrame) :=
  l <- iqr_locals data feature left right log_scale ;;
  Ok (outliers l, cleaned l).

(** Lines 50-60. *)
Definition z_score_locals (data : DataFrame) (feature : string) (left right : float64)
  (log_scale : bool) : result locals :=
  x <- feature_values data feature log_scale ;;
  let mu := mean x in
  let sigma := std x in
  let lower_bound := fsub mu (fmul left sigma) in
  let upper_bound := fadd mu (fmul right sigma) in
  Ok (partition data x lower_bound upper_bound).

Definition find_outliers_z_score (data : DataFrame) (feature : string) (left right : float64)
  (log_scale : bool) : result (DataFrame * DataFrame) :=
  l <- z_score_locals data feature left right log_scale ;;
  Ok (outliers l, cleaned l).

(** Lines 94-99. *)
Definition quantile_locals (data : DataFrame) (feature : string) (left right : float64)
  : result locals :=
  x <- getitem data feature ;;
  lower_bound <- quantile x left ;;
  upper_bound <- quantile x right ;;
  Ok (partition data x lower_bound upper_bound).

Definition find_outliers_quantile (data : DataFrame) (feature : string) (left right : float64)
  : result (DataFrame * DataFrame) :=
  l <- quantile_locals data feature left right ;;
  Ok (outliers l, cleaned l).

End Library.

(** ** Vocabulary of the properties *)

(** The value the comparisons see for one row: the cell of the feature
    column (position [j]), after [np.log(. + 1)] when [log_scale] is set. *)
Definition row_x (ln : Q -> Q) (j : nat) (log_scale : bool) (r : Row) : float64 :=
  let v := nth j (cells r) NaN in
  if log_scale then np_log ln (fadd v (Fin 1)) else v.

(** [l] holds the locals of a call of one of the three functions;
    [find_outliers_quantile] has no [log_scale]. *)
Definition run_of (ln sqrt : Q -> Q) (data : DataFrame) (feature : string)
  (left right : float64) (log_scale : bool) (l : locals) : Prop :=
  iqr_locals ln data feature left right log_scale = Ok l \/
  z_score_locals ln sqrt data feature left right log_scale = Ok l \/
  (log_scale = false /\ quantile_locals data feature left right = Ok l).

(** [res] is the pair returned by a call of one of the three functions. *)
Definition returns (ln sqrt : Q -> Q) (data : DataFrame) (feature : string)
  (left right : float64) (log_scale : bool) (res : DataFrame * DataFrame) : Prop :=
  find_outliers_iqr ln data feature left right log_scale = Ok res \/
  find_outliers_z_score ln sqrt data feature left right log_scale = Ok res \/
  (log_scale = false /\ find_outliers_quantile data feature left right = Ok res).

(** One of the two bounds of a call is NaN. *)
Definition nan_bound (l : locals) : Prop :=
  isnan (lower_bound l) = true \/ isnan (upper_bound l) = true.

(** Both returned frames are empty. *)
Definition no_rows (l : locals) : Prop :=
  rows (outliers l) = [] /\ rows (cleaned l) = [].

Definition fle (a b : float64) : Prop := fleb a b = true.

(** What a spread (an interquartile range, a standard deviation) can be. *)
Definition spread (s : float64) : Prop :=
  match s with
  | NaN | PosInf => True
  | Fin q => 0 <= q
  | NegInf => False
  end.

(** ** Executable stand-ins for the two library functions

    Rational approximations, used to run the functions on concrete
    frames: [2 * atanh ((q - 1) / (q + 1))] cut after eight terms, and the
    integer square root at six decimal places. *)

Fixpoint atanh_series (z : Q) (k : nat) : Q :=
  match k with
  | O => 0
  | S k' => atanh_series z k' + z ^ (2 * Z.of_nat k' + 1) / inject_Z (2 * Z.of_nat k' + 1)
  end.

Definition ln_approx (q : Q) : Q := Qred (2 * atanh_series ((q - 1) / (q + 1)) 8).

Definition sqrt_approx (q : Q) : Q :=
  Z.sqrt (Qnum q * Zpos (Qden q) * 10 ^ 12) # (Qden q * 10 ^ 6).

(** ** Sample frames *)

Definition frame_of (name : string) (values : list Q) : DataFrame :=
  mkDataFrame [name]
    (map (fun iv => mkRow (Z.of_nat (fst iv)) [Fin (snd iv)])
       (combine (seq 0 (List.length values)) values)).

(** Scenario A of the specification. *)
Definition scenario_a : DataFrame := frame_of "value" [1; 2; 3; 4; 5; 6; 100].

Definition scenario_a_outliers : DataFrame :=
  mkDataFrame ["value"] [mkRow 6 [Fin 100]].

Definition scenario_a_cleaned : DataFrame :=
  mkDataFrame ["value"] (firstn 6 (rows scenario_a)).

(** Three values, to be cut at the quantiles 1 and 0 (in that order). *)
Definition three_values : DataFrame := frame_of "v" [1; 2; 3].

(** A constant column. *)
Definition all_sevens : DataFrame := frame_of "v" [7; 7; 7].

(** A column with a value below -1. *)
Definition with_negative : DataFrame := frame_of "v" [-2; 0; 1; 3; 50].

(** Two far values around a run of close ones. *)
Definition spread_out : DataFrame := frame_of "v" [-40; 1; 2; 3; 4; 5; 6; 30].

(** A single row. *)
Definition single_row : DataFrame := frame_of "v" [5].

(** A constant column with a missing value. *)
Definition sevens_and_missing : DataFrame :=
  mkDataFrame ["v"] [mkRow 0 [Fin 7]; mkRow 1 [Fin 7]; mkRow 2 [NaN]].

(** A column with an infinite value. *)
Definition with_infinity : DataFrame :=
  mkDataFrame ["v"] [mkRow 0 [Fin 1]; mkRow 1 [Fin 2]; mkRow 2 [PosInf]].

(** ** Vocabulary of the further properties *)

(** A float64 that [Series.quantile] accepts as a probability. *)
Definition probability (q : float64) : Prop := exists p, q = Fin p /\ 0 <= p <= 1.

(** A frame with a missing value in its second row. *)
Definition with_missing : DataFrame :=
  mkDataFrame ["v"]
    [mkRow 0 [Fin 1]; mkRow 1 [NaN]; mkRow 2 [Fin 2]; mkRow 3 [Fin 3]; mkRow 4 [Fin 40]].

(** * Properties *)

(** ** Comparisons of float64 values *)

Lemma Qltb_lt (p q : Q) : Qltb p q = true <-> p < q.
Proof.
  unfold Qltb. pose proof (Qlt_alt p q) as H.
  destruct (p ?= q); split; intros H'; try congruence; try (now apply H).
  - apply H in H'. discriminate.
  - apply H in H'. discriminate.
Qed.

Lemma Qltb_ge (p q : Q) : Qltb p q = false <-> q <= p.
Proof.
  split; intros H.
  - apply Qnot_lt_le. intros L. apply Qltb_lt in L. congruence.
  - destruct (Qltb p q) eqn:E; [apply Qltb_lt in E; lra | reflexivity].
Qed.

Lemma Qcompare_cases (p q : Q) :
  ((p ?= q) = Lt /\ p < q) \/ ((p ?= q) = Eq /\ p == q) \/ ((p ?= q) = Gt /\ q < p).
Proof.
  destruct (p ?= q) eqn:E.
  - right; left. split; [reflexivity | now apply Qeq_alt].
  - left. split; [reflexivity | now apply Qlt_alt].
  - right; right. split; [reflexivity | now apply Qgt_alt].
Qed.

(** Turns every boolean comparison on rationals in sight into its
    proposition. *)
Ltac qbool :=
  repeat match goal with
    | H : Qltb _ _ = true |- _ => rewrite Qltb_lt in H
    | H : Qltb _ _ = false |- _ => rewrite Qltb_ge in H
    | H : Qle_bool _ _ = true |- _ => rewrite Qle_bool_iff in H
    | H : Qle_bool _ _ = false |- _ =>
        rewrite <- not_true_iff_false, Qle_bool_iff in H
    | H : Qeq_bool _ _ = true |- _ => rewrite Qeq_bool_iff in H
    | H : Qeq_bool _ _ = false |- _ =>
        rewrite <- not_true_iff_false, Qeq_bool_iff in H
    | |- Qltb _ _ = true => rewrite Qltb_lt
    | |- Qltb _ _ = false => rewrite Qltb_ge
    | |- Qle_bool _ _ = true => rewrite Qle_bool_iff
    | |- Qle_bool _ _ = false => rewrite <- not_true_iff_false, Qle_bool_iff
    | |- Qeq_bool _ _ = true => rewrite Qeq_bool_iff
    | |- Qeq_bool _ _ = false => rewrite <- not_true_iff_false, Qeq_bool_iff
    end.

Lemma fltb_asym (a b : float64) : fltb a b = true -> fltb b a = false.
Proof.
  destruct a, b; simpl; try congruence. intros; qbool; lra.
Qed.

Lemma fltb_nan_r (a : float64) : fltb a NaN = false.
Proof. now destruct a. Qed.

Lemma fltb_nan_l (a : float64) : fltb NaN a = false.
Proof. reflexivity. Qed.

Lemma feqb_not_lt (a b : float64) : feqb a b = true -> fltb a b = false /\ fltb b a = false.
Proof.
  destruct a, b; simpl; try congruence; auto. intros; split; qbool; lra.
Qed.

Lemma fltb_fleb (a b : float64) : fltb a b = true -> fleb a b = true.
Proof.
  destruct a, b; simpl; try congruence. intros; qbool; lra.
Qed.

Lemma fleb_not_gt (a b : float64) : fleb a b = true -> fltb b a = false.
Proof.
  destruct a, b; simpl; try congruence. intros; qbool; lra.
Qed.

Lemma fleb_trans (a b c : float64) : fleb a b = true -> fleb b c = true -> fleb a c = true.
Proof.
  destruct a, b, c; simpl; try congruence. intros; qbool; lra.
Qed.



Lemma fleb_total (a b : float64) :
  isnan a = false -> isnan b = false -> fleb a b = false -> fleb b a = true.
Proof.
  destruct a, b; simpl; try congruence. intros; qbool; lra.
Qed.

Lemma fleb_refl (a : float64) : isnan a = false -> fleb a a = true.
Proof.
  destruct a; simpl; try congruence. intros; qbool; lra.
Qed.

(** ** Masks and boolean indexing *)

Lemma mask_or_map {A : Type} (p q : A -> bool) (l : list A) :
  mask_or (map p l) (map q l) = map (fun a => (p a || q a)%bool) l.
Proof.
  induction l as [|a l IH]; simpl; [reflexivity | now rewrite IH].
Qed.

Lemma mask_and_map {A : Type} (p q : A -> bool) (l : list A) :
  mask_and (map p l) (map q l) = map (fun a => (p a && q a)%bool) l.
Proof.
  induction l as [|a l IH]; simpl; [reflexivity | now rewrite IH].
Qed.

Lemma select_rows_map (p : Row -> bool) (rs : list Row) :
  select_rows rs (map p rs) = filter p rs.
Proof.
  induction rs as [|r rs IH]; simpl; [reflexivity|].
  destruct (p r); now rewrite IH.
Qed.

Lemma select_rows_incl (rs : list Row) (mask : list bool) :
  incl (select_rows rs mask) rs.
Proof.
  revert mask. induction rs as [|r rs IH]; intros [|m mask]; simpl;
    try (intros a []).
  destruct m.
  - intros a [->|H]; [now left | right; now apply (IH mask)].
  - intros a H. right. now apply (IH mask).
Qed.


Lemma filter_nil_iff {A : Type} (p : A -> bool) (l : list A) :
  filter p l = [] <-> forall a, In a l -> p a = false.
Proof.
  induction l as [|a l IH]; simpl.
  - split; [intros _ a [] | reflexivity].
  - destruct (p a) eqn:Ep.
    + split; [discriminate|]. intros H. specialize (H a (or_introl eq_refl)). congruence.
    + rewrite IH. split.
      * intros H b [<-|Hb]; auto.
      * intros H b Hb. apply H. now right.
Qed.

(** ** Column lookup *)

Lemma index_of_none (name : string) (cols : list string) :
  index_of name cols = None <-> ~ In name cols.
Proof.
  induction cols as [|c cols IH]; simpl.
  - tauto.
  - destruct (String.eqb_spec name c) as [->|Hne].
    + split; [discriminate | intros H; exfalso; apply H; now left].
    + destruct (index_of name cols).
      * split; [discriminate|]. intros H. exfalso.
        assert (Hn : ~ In name cols) by tauto.
        apply IH in Hn. discriminate.
      * split; [|reflexivity]. intros _ [E|Hin]; [congruence|]. now apply IH.
Qed.

Lemma index_of_some (name : string) (cols : list string) :
  In name cols -> exists j, index_of name cols = Some j.
Proof.
  intros Hin. destruct (index_of name cols) as [j|] eqn:E; [now exists j|].
  apply index_of_none in E. contradiction.
Qed.

(** ** The shape of a call *)

Lemma feature_values_ok (ln : Q -> Q) (data : DataFrame) (feature : string)
  (log_scale : bool) (j : nat) :
  index_of feature (columns data) = Some j ->
  feature_values ln data feature log_scale = Ok (map (row_x ln j log_scale) (rows data)).
Proof.
  intros Hj. unfold feature_values, getitem, row_x, series_log, series_add.
  rewrite Hj. destruct log_scale; simpl; [|reflexivity].
  now rewrite !map_map.
Qed.

Lemma getitem_ok (ln : Q -> Q) (data : DataFrame) (feature : string) (j : nat) :
  index_of feature (columns data) = Some j ->
  getitem data feature = Ok (map (row_x ln j false) (rows data)).
Proof.
  intros Hj. unfold getitem, row_x. now rewrite Hj.
Qed.

Lemma getitem_err (data : DataFrame) (feature : string) :
  index_of feature (columns data) = None ->
  getitem data feature = Err (KeyError feature).
Proof.
  intros Hj. unfold getitem. now rewrite Hj.
Qed.

Lemma feature_values_err (ln : Q -> Q) (data : DataFrame) (feature : string)
  (log_scale : bool) :
  index_of feature (columns data) = None ->
  feature_values ln data feature log_scale = Err (KeyError feature).
Proof.
  intros Hj. unfold feature_values. rewrite (getitem_err _ _ Hj).
  now destruct log_scale.
Qed.

Lemma quartiles_ok (x : Series) :
  quartiles x = Ok (nanpercentile x (1 # 4), nanpercentile x (3 # 4)).
Proof. reflexivity. Qed.

Lemma quantile_inv (x : Series) (q v : float64) :
  quantile x q = Ok v ->
  exists p, q = Fin p /\ 0 <= p <= 1 /\ v = nanpercentile x p.
Proof.
  unfold quantile, validate_percentile. destruct q as [| |p|]; simpl; try discriminate.
  destruct (Qle_bool 0 p) eqn:E0; simpl; [|discriminate].
  destruct (Qle_bool p 1) eqn:E1; simpl; [|discriminate].
  intros [= <-]. exists p. qbool. auto.
Qed.

Lemma quantile_ok (x : Series) (p : Q) :
  0 <= p <= 1 -> quantile x (Fin p) = Ok (nanpercentile x p).
Proof.
  intros [H0 H1]. unfold quantile, validate_percentile.
  apply Qle_bool_iff in H0, H1. now rewrite H0, H1.
Qed.

(** Every successful call found the column and partitioned the frame by
    the values [row_x] of its rows. *)
Lemma run_of_partition (ln sqrt : Q -> Q) (data : DataFrame) (feature : string)
  (left right : float64) (log_scale : bool) (l : locals) :
  run_of ln sqrt data feature left right log_scale l ->
  exists j, index_of feature (columns data) = Some j /\
    l = partition data (map (row_x ln j log_scale) (rows data))
          (lower_bound l) (upper_bound l).
Proof.
  intros H.
  destruct (index_of feature (columns data)) as [j|] eqn:Hj.
  - exists j. split; [reflexivity|].
    destruct H as [H|[H|[-> H]]].
    + unfold iqr_locals in H. rewrite (feature_values_ok _ _ _ _ _ Hj) in H.
      simpl in H. now injection H as <-.
    + unfold z_score_locals in H. rewrite (feature_values_ok _ _ _ _ _ Hj) in H.
      simpl in H. now injection H as <-.
    + unfold quantile_locals in H. rewrite (getitem_ok ln _ _ _ Hj) in H.
      simpl in H.
      destruct (quantile _ left); simpl in H; [|discriminate].
      destruct (quantile _ right); simpl in H; [|discriminate].
      now injection H as <-.
  - exfalso. destruct H as [H|[H|[-> H]]].
    + unfold iqr_locals in H. now rewrite (feature_values_err _ _ _ _ Hj) in H.
    + unfold z_score_locals in H. now rewrite (feature_values_err _ _ _ _ Hj) in H.
    + unfold quantile_locals in H. now rewrite (getitem_err _ _ Hj) in H.
Qed.

Lemma partition_outliers (data : DataFrame) (f : Row -> float64) (lower upper : float64) :
  rows (outliers (partition data (map f (rows data)) lower upper)) =
  filter (fun r => (fltb (f r) lower || fgtb (f r) upper)%bool) (rows data).
Proof.
  unfold partition, boolean_index, series_lt, series_gt. simpl.
  rewrite !map_map, mask_or_map. apply select_rows_map.
Qed.

Lemma partition_cleaned (data : DataFrame) (f : Row -> float64) (lower upper : float64) :
  rows (cleaned (partition data (map f (rows data)) lower upper)) =
  filter (fun r => (fgtb (f r) lower && fltb (f r) upper)%bool) (rows data).
Proof.
  unfold partition, boolean_index, series_lt, series_gt. simpl.
  rewrite !map_map, mask_and_map. apply select_rows_map.
Qed.

Lemma partition_columns (data : DataFrame) (x : Series) (lower upper : float64) :
  columns (outliers (partition data x lower upper)) = columns data /\
  columns (cleaned (partition data x lower upper)) = columns data.
Proof. split; reflexivity. Qed.

Lemma bind_ok_inv {A B : Type} (r : result A) (k : A -> result B) (b : B) :
  bind r k = Ok b -> exists a, r = Ok a /\ k a = Ok b.
Proof.
  destruct r as [a|e]; simpl; [|discriminate]. intros H. now exists a.
Qed.

Lemma returns_run_of (ln sqrt : Q -> Q) (data : DataFrame) (feature : string)
  (left right : float64) (log_scale : bool) (o c : DataFrame) :
  returns ln sqrt data feature left right log_scale (o, c) ->
  exists l, run_of ln sqrt data feature left right log_scale l /\
    o = outliers l /\ c = cleaned l.
Proof.
  intros [H|[H|[Hls H]]]; apply bind_ok_inv in H; destruct H as (l & Hl & [= <- <-]);
    exists l; unfold run_of; auto.
Qed.

Lemma masks_disjoint (x : Series) (lower upper : float64) (i : nat) :
  (nth i (mask_or (series_lt x lower) (series_gt x upper)) false &&
   nth i (mask_and (series_gt x lower) (series_lt x upper)) false)%bool = false.
Proof.
  revert i. induction x as [|v x IH]; intros [|i]; simpl; try reflexivity.
  - unfold fgtb.
    destruct (fltb v lower) eqn:E1; simpl.
    + now rewrite (fltb_asym _ _ E1).
    + destruct (fltb upper v) eqn:E2; simpl; [|reflexivity].
      rewrite (fltb_asym _ _ E2). apply andb_false_r.
  - apply IH.
Qed.

Lemma mask_or_length (m1 m2 : list bool) :
  List.length m1 = List.length m2 -> List.length (mask_or m1 m2) = List.length m1.
Proof.
  revert m2. induction m1 as [|a m1 IH]; intros [|b m2]; simpl; try congruence.
  intros [= H]. now rewrite IH.
Qed.

Lemma mask_and_length (m1 m2 : list bool) :
  List.length m1 = List.length m2 -> List.length (mask_and m1 m2) = List.length m1.
Proof.
  revert m2. induction m1 as [|a m1 IH]; intros [|b m2]; simpl; try congruence.
  intros [= H]. now rewrite IH.
Qed.

(** ** Disjointness (C2) *)

(** C2. The two frames returned by each of the three functions are
    disjoint: they are cut out of the input by two boolean masks, one entry
    per input row, that are never both True at the same position, and no
    row is a member of both. *)
Theorem outliers_cleaned_disjoint (ln sqrt : Q -> Q) (data : DataFrame)
  (feature : string) (left right : float64) (log_scale : bool) (o c : DataFrame) :
  returns ln sqrt data feature left right log_scale (o, c) ->
  (exists m_out m_clean,
      o = boolean_index data m_out /\ c = boolean_index data m_clean /\
      List.length m_out = List.length (rows data) /\
      List.length m_clean = List.length (rows data) /\
      forall i, (nth i m_out false && nth i m_clean false)%bool = false) /\
  (forall r, In r (rows o) -> In r (rows c) -> False).
Proof.
  intros H. apply returns_run_of in H. destruct H as (l & Hrun & -> & ->).
  apply run_of_partition in Hrun. destruct Hrun as (j & _ & Hl).
  set (x := map (row_x ln j log_scale) (rows data)) in *.
  set (lb := lower_bound l) in *. set (ub := upper_bound l) in *.
  split.
  - exists (mask_or (series_lt x lb) (series_gt x ub)),
      (mask_and (series_gt x lb) (series_lt x ub)).
    rewrite Hl. simpl.
    assert (Hx : List.length x = List.length (rows data)) by apply length_map.
    repeat split.
    + rewrite mask_or_length; unfold series_lt, series_gt; now rewrite !length_map.
    + rewrite mask_and_length; unfold series_lt, series_gt; now rewrite !length_map.
    + apply masks_disjoint.
  - intros r Ho Hc. rewrite Hl in Ho, Hc. subst x.
    rewrite partition_outliers in Ho. rewrite partition_cleaned in Hc.
    apply filter_In in Ho, Hc. destruct Ho as [_ Ho], Hc as [_ Hc].
    apply andb_true_iff in Hc. destruct Hc as [Hc1 Hc2]. unfold fgtb in *.
    apply orb_true_iff in Ho. destruct Ho as [Ho|Ho].
    + apply fltb_asym in Ho. congruence.
    + apply fltb_asym in Ho. congruence.
Qed.

(** ** Rows and columns pass through unchanged (C3) *)

(** C3. Both returned frames have the columns of the input, and their rows
    are rows of the input, cells unchanged and in the input's order,
    whatever [log_scale] is: the transformed values are used for the
    bounds and the masks only. *)
Theorem outputs_are_input_rows (ln sqrt : Q -> Q) (data : DataFrame)
  (feature : string) (left right : float64) (log_scale : bool) (o c : DataFrame) :
  returns ln sqrt data feature left right log_scale (o, c) ->
  columns o = columns data /\ columns c = columns data /\
  incl (rows o) (rows data) /\ incl (rows c) (rows data) /\
  exists keep_o keep_c,
    rows o = filter keep_o (rows data) /\ rows c = filter keep_c (rows data).
Proof.
  intros H. apply returns_run_of in H. destruct H as (l & Hrun & -> & ->).
  apply run_of_partition in Hrun. destruct Hrun as (j & _ & Hl).
  rewrite Hl. rewrite partition_outliers, partition_cleaned.
  repeat split.
  - intros r Hr. now apply filter_In in Hr.
  - intros r Hr. now apply filter_In in Hr.
  - eexists; eexists; split; reflexivity.
Qed.

(** ** An unknown column (C8) *)

(** C8. When [feature] is not a column of [data], each of the three
    functions raises KeyError for that name; no pair of frames is
    returned. *)
Theorem missing_column_raises (ln sqrt : Q -> Q) (data : DataFrame)
  (feature : string) (left right : float64) (log_scale : bool) :
  ~ In feature (columns data) ->
  find_outliers_iqr ln data feature left right log_scale = Err (KeyError feature) /\
  find_outliers_z_score ln sqrt data feature left right log_scale = Err (KeyError feature) /\
  find_outliers_quantile data feature left right = Err (KeyError feature).
Proof.
  intros H. apply index_of_none in H.
  unfold find_outliers_iqr, find_outliers_z_score, find_outliers_quantile,
    iqr_locals, z_score_locals, quantile_locals.
  rewrite (feature_values_err _ _ _ _ H), (getitem_err _ _ H). auto.
Qed.

(** ** The three-way split (C1) *)

Lemma at_bound_not_beyond (x lower upper : float64) :
  fleb lower upper = true ->
  feqb x lower = true \/ feqb x upper = true ->
  fltb x lower = false /\ fltb upper x = false.
Proof.
  intros Hle [H|H]; destruct x, lower, upper; simpl in *; try congruence; auto;
    split; qbool; lra.
Qed.

(** C1, as the code has it. In a call of any of the three functions a row
    whose value [x] is below the lower or above the upper bound is among
    the outliers, and a row with [x] strictly between the bounds is among
    the cleaned rows. A row with [x] equal to a bound is never among the
    cleaned rows; it is among the outliers exactly when it lies strictly
    beyond the other bound, and so in neither frame when
    [lower_bound <= upper_bound]. *)
Theorem three_way_split (ln sqrt : Q -> Q) (data : DataFrame) (feature : string)
  (left right : float64) (log_scale : bool) (l : locals) :
  run_of ln sqrt data feature left right log_scale l ->
  exists j, index_of feature (columns data) = Some j /\
    forall r, In r (rows data) ->
      let x := row_x ln j log_scale r in
      (fltb x (lower_bound l) = true \/ fgtb x (upper_bound l) = true ->
       In r (rows (outliers l))) /\
      (fgtb x (lower_bound l) = true /\ fltb x (upper_bound l) = true ->
       In r (rows (cleaned l))) /\
      (feqb x (lower_bound l) = true \/ feqb x (upper_bound l) = true ->
       ~ In r (rows (cleaned l)) /\
       (In r (rows (outliers l)) <->
        fltb x (lower_bound l) = true \/ fgtb x (upper_bound l) = true) /\
       (fleb (lower_bound l) (upper_bound l) = true -> ~ In r (rows (outliers l)))).
Proof.
  intros Hrun. apply run_of_partition in Hrun. destruct Hrun as (j & Hj & Hl).
  exists j. split; [exact Hj|]. intros r Hr x.
  set (lb := lower_bound l) in *. set (ub := upper_bound l) in *.
  assert (Ho : In r (rows (outliers l)) <-> fltb x lb = true \/ fgtb x ub = true).
  { rewrite Hl, partition_outliers, filter_In, orb_true_iff. tauto. }
  assert (Hc : In r (rows (cleaned l)) <-> fgtb x lb = true /\ fltb x ub = true).
  { rewrite Hl, partition_cleaned, filter_In, andb_true_iff. tauto. }
  split; [apply Ho|]. split; [apply Hc|].
  intros Heq. split; [|split].
  - rewrite Hc. unfold fgtb. intros [H1 H2].
    destruct Heq as [E|E]; apply feqb_not_lt in E; destruct E; congruence.
  - exact Ho.
  - intros Hle. rewrite Ho. unfold fgtb.
    destruct (at_bound_not_beyond x lb ub Hle Heq) as [H1 H2].
    intros [H|H]; congruence.
Qed.

(** C1 as stated fails when the bounds are inverted: cutting 1, 2, 3 at
    the quantiles 1 and 0 gives the bounds 3 and 1, and the row whose value
    equals the lower bound 3 is returned as an outlier. *)
Lemma row_at_bound_is_outlier :
  exists l,
    quantile_locals three_values "v" (Fin 1) (Fin 0) = Ok l /\
    feqb (lower_bound l) (Fin 3) = true /\
    feqb (upper_bound l) (Fin 1) = true /\
    In (mkRow 2 [Fin 3]) (rows three_values) /\
    feqb (row_x ln_approx 0 false (mkRow 2 [Fin 3])) (lower_bound l) = true /\
    In (mkRow 2 [Fin 3]) (rows (outliers l)).
Proof.
  eexists. split; [vm_compute; reflexivity|]. simpl.
  repeat split; try reflexivity; right; right; left; reflexivity.
Qed.

(** ** Scenario A (C4) *)

(** C4, as the code has it. On the values 1, 2, 3, 4, 5, 6, 100 with
    left = right = 1.5 and no log scale, the quartiles interpolate to
    Q1 = 2.5 and Q3 = 5.5, so IQR = 3 and the bounds are -2 and 10; the
    outliers are exactly the row with 100 and the cleaned rows exactly
    those with 1 to 6. *)
Theorem scenario_a_iqr (ln : Q -> Q) :
  exists x q1 q3 l,
    getitem scenario_a "value" = Ok x /\
    quartiles x = Ok (q1, q3) /\
    feqb q1 (Fin (5 # 2)) = true /\
    feqb q3 (Fin (11 # 2)) = true /\
    feqb (fsub q3 q1) (Fin 3) = true /\
    iqr_locals ln scenario_a "value" (Fin (3 # 2)) (Fin (3 # 2)) false = Ok l /\
    feqb (lower_bound l) (Fin (-2)) = true /\
    feqb (upper_bound l) (Fin 10) = true /\
    find_outliers_iqr ln scenario_a "value" (Fin (3 # 2)) (Fin (3 # 2)) false =
    Ok (scenario_a_outliers, scenario_a_cleaned).
Proof.
  do 4 eexists.
  split; [vm_compute; reflexivity|].
  split; [vm_compute; reflexivity|].
  split; [reflexivity|]. split; [reflexivity|]. split; [reflexivity|].
  split; [vm_compute; reflexivity|].
  split; [reflexivity|]. split; [reflexivity|].
  vm_compute. reflexivity.
Qed.

(** The quartiles and bounds C4 states (Q1 = 2, Q3 = 5, bounds -2.5 and
    9.5) are not the ones computed. *)
Lemma scenario_a_not_as_stated :
  exists x q1 q3 l,
    getitem scenario_a "value" = Ok x /\
    quartiles x = Ok (q1, q3) /\
    iqr_locals ln_approx scenario_a "value" (Fin (3 # 2)) (Fin (3 # 2)) false = Ok l /\
    feqb q1 (Fin 2) = false /\
    feqb q3 (Fin 5) = false /\
    feqb (lower_bound l) (Fin (-5 # 2)) = false /\
    feqb (upper_bound l) (Fin (19 # 2)) = false.
Proof.
  do 4 eexists.
  split; [vm_compute; reflexivity|].
  split; [vm_compute; reflexivity|].
  split; [vm_compute; reflexivity|].
  repeat split; reflexivity.
Qed.

(** ** Zero variance (C5) *)

Lemma fadd_fin_inv (a b : float64) (t : Q) :
  fadd a b = Fin t -> exists p q, a = Fin p /\ b = Fin q.
Proof.
  destruct a as [| |p|], b as [| |q|]; simpl; try discriminate.
  intros _. now exists p, q.
Qed.

Lemma fneg_fin_inv (a : float64) (t : Q) : fneg a = Fin t -> exists p, a = Fin p.
Proof.
  destruct a as [| |p|]; simpl; try discriminate. intros _. now exists p.
Qed.

Lemma fold_fadd_fin_inv (s : Series) (a : float64) (t : Q) :
  fold_left fadd s a = Fin t ->
  (exists p, a = Fin p) /\ Forall (fun v => isfinite v = true) s.
Proof.
  revert a. induction s as [|v s IH]; simpl; intros a H.
  - split; [now exists t | constructor].
  - apply IH in H. destruct H as [[p Hp] Hs].
    apply fadd_fin_inv in Hp. destruct Hp as (p1 & p2 & -> & ->).
    split; [now exists p1|]. now constructor.
Qed.

Lemma fdivn_fin_inv (a : float64) (n : nat) (t : Q) :
  fdivn a n = Fin t -> exists p, a = Fin p.
Proof.
  destruct a as [| |p|]; simpl; try discriminate. intros _. now exists p.
Qed.

Lemma fmul_square_fin_inv (d : float64) (t : Q) :
  fmul d d = Fin t -> exists p, d = Fin p.
Proof.
  destruct d as [| |p|]; simpl; try discriminate. intros _. now exists p.
Qed.

(** A finite variance comes with a finite mean. *)
Lemma var_fin_mean (x : Series) (v : Q) : var x = Fin v -> exists m, mean x = Fin m.
Proof.
  unfold var, mean. destruct (dropna x) as [|v0 vs]; [discriminate|].
  destruct (List.length (v0 :: vs) <=? 1)%nat; [discriminate|].
  intros H. apply fdivn_fin_inv in H. destruct H as [p H].
  apply fold_fadd_fin_inv in H. destruct H as [_ H].
  simpl in H. apply Forall_inv in H.
  destruct (fmul _ _) as [| |t|] eqn:E in H; try discriminate.
  apply fmul_square_fin_inv in E. destruct E as [d E].
  apply fadd_fin_inv in E. destruct E as (m & _ & E & _).
  now exists m.
Qed.

(** C5, as the code has it. In a call of [find_outliers_z_score] with
    finite multipliers whose standard deviation comes out as zero, both
    bounds equal the mean; every row whose value is a number other than the
    mean is an outlier, and every row whose value equals the mean or is
    missing is in neither frame. The same holds when the standard
    deviation is any finite number and both multipliers are zero. *)
Theorem zero_variance_collapses (ln sqrt : Q -> Q) (data : DataFrame)
  (feature : string) (left right : Q) (log_scale : bool) (l : locals) :
  z_score_locals ln sqrt data feature (Fin left) (Fin right) log_scale = Ok l ->
  feqb (std sqrt (loc_x l)) (Fin 0) = true \/
  (isfinite (std sqrt (loc_x l)) = true /\ left == 0 /\ right == 0) ->
  feqb (lower_bound l) (mean (loc_x l)) = true /\
  feqb (upper_bound l) (mean (loc_x l)) = true /\
  exists j, index_of feature (columns data) = Some j /\
    forall r, In r (rows data) ->
      let x := row_x ln j log_scale r in
      (isnan x = false -> feqb x (mean (loc_x l)) = false ->
       In r (rows (outliers l))) /\
      (feqb x (mean (loc_x l)) = true \/ isnan x = true ->
       ~ In r (rows (outliers l)) /\ ~ In r (rows (cleaned l))).
Proof.
  intros Hrun Hs.
  assert (Hp : run_of ln sqrt data feature (Fin left) (Fin right) log_scale l)
    by (right; left; exact Hrun).
  apply run_of_partition in Hp. destruct Hp as (j & Hj & Hl).
  unfold z_score_locals in Hrun. rewrite (feature_values_ok _ _ _ _ _ Hj) in Hrun.
  simpl in Hrun. injection Hrun as Hrun.
  set (xs := map (row_x ln j log_scale) (rows data)) in *.
  assert (Hx : loc_x l = xs) by now rewrite <- Hrun.
  assert (Hlb : lower_bound l = fsub (mean xs) (fmul (Fin left) (std sqrt xs)))
    by now rewrite <- Hrun.
  assert (Hub : upper_bound l = fadd (mean xs) (fmul (Fin right) (std sqrt xs)))
    by now rewrite <- Hrun.
  rewrite Hx in *. clear Hrun.
  assert (Hfin : exists s, std sqrt xs = Fin s /\ left * s == 0 /\ right * s == 0).
  { destruct Hs as [Hs|(Hf & Hl0 & Hr0)];
      destruct (std sqrt xs) as [| |s|]; simpl in *; try discriminate;
      exists s; (split; [reflexivity|]).
    - qbool. split; rewrite Hs; ring.
    - split; [rewrite Hl0 | rewrite Hr0]; ring. }
  clear Hs. destruct Hfin as (s & Es & Hl0 & Hr0). rewrite Es in Hlb, Hub.
  unfold std in Es. destruct (var xs) as [| |v|] eqn:Ev; simpl in Es; try discriminate.
  destruct (var_fin_mean _ _ Ev) as [m Hm]. rewrite Hm in *.
  simpl in Hlb, Hub.
  rewrite Hlb, Hub.
  split; [simpl; qbool; lra|]. split; [simpl; qbool; lra|].
  exists j. split; [exact Hj|]. intros r Hr x.
  assert (Ho : In r (rows (outliers l)) <->
               fltb x (lower_bound l) = true \/ fgtb x (upper_bound l) = true).
  { rewrite Hl at 1. unfold xs.
    rewrite partition_outliers, filter_In, orb_true_iff. tauto. }
  assert (Hc : In r (rows (cleaned l)) <->
               fgtb x (lower_bound l) = true /\ fltb x (upper_bound l) = true).
  { rewrite Hl at 1. unfold xs.
    rewrite partition_cleaned, filter_In, andb_true_iff. tauto. }
  rewrite Ho, Hc, Hlb, Hub. unfold fgtb. clearbody x.
  split.
  - intros Hn Hne. destruct x as [| |q|]; simpl in *; try discriminate; auto.
    qbool. destruct (Qlt_le_dec q m) as [Hlt|Hge].
    + left. qbool. lra.
    + right. qbool. destruct (Qlt_le_dec m q) as [Hlt|Hle]; [lra|].
      exfalso. apply Hne. lra.
  - intros [He|He]; destruct x as [| |q|]; simpl in *; try discriminate.
    + qbool. split.
      * intros [H|H]; qbool; lra.
      * intros [H _]; qbool; lra.
    + split; [intros [H|H] | intros [H _]]; discriminate.
Qed.

(** C5 as stated fails. On 7, 7 and a missing value the standard
    deviation is 0 and the row with the missing value differs from the
    mean, yet it is no outlier; and with [left = right = +inf], which are
    greater than 0, the bounds on 7, 7, 7 are NaN, not the mean. *)
Lemma missing_row_is_no_outlier :
  (exists l,
      z_score_locals ln_approx sqrt_approx sevens_and_missing "v" (Fin 3) (Fin 3) false =
      Ok l /\
      feqb (std sqrt_approx (loc_x l)) (Fin 0) = true /\
      feqb (mean (loc_x l)) (Fin 7) = true /\
      In (mkRow 2 [NaN]) (rows sevens_and_missing) /\
      feqb (row_x ln_approx 0 false (mkRow 2 [NaN])) (mean (loc_x l)) = false /\
      rows (outliers l) = []) /\
  (exists l,
      z_score_locals ln_approx sqrt_approx all_sevens "v" PosInf PosInf false = Ok l /\
      feqb (std sqrt_approx (loc_x l)) (Fin 0) = true /\
      lower_bound l = NaN /\ upper_bound l = NaN).
Proof.
  split; eexists; (split; [vm_compute; reflexivity|]).
  - repeat split; try reflexivity. right; right; left; reflexivity.
  - repeat split; reflexivity.
Qed.

(** Membership in the two frames of a call, row by row. *)
Lemma run_of_members (ln sqrt : Q -> Q) (data : DataFrame) (feature : string)
  (left right : float64) (log_scale : bool) (l : locals) (j : nat) :
  run_of ln sqrt data feature left right log_scale l ->
  index_of feature (columns data) = Some j ->
  forall r,
    (In r (rows (outliers l)) <->
     In r (rows data) /\
     (fltb (row_x ln j log_scale r) (lower_bound l) = true \/
      fgtb (row_x ln j log_scale r) (upper_bound l) = true)) /\
    (In r (rows (cleaned l)) <->
     In r (rows data) /\
     fgtb (row_x ln j log_scale r) (lower_bound l) = true /\
     fltb (row_x ln j log_scale r) (upper_bound l) = true).
Proof.
  intros Hrun Hj r. apply run_of_partition in Hrun.
  destruct Hrun as (j' & Hj' & Hl).
  assert (j' = j) by congruence. subst j'.
  split.
  - rewrite Hl at 1. now rewrite partition_outliers, filter_In, orb_true_iff.
  - rewrite Hl at 1. now rewrite partition_cleaned, filter_In, andb_true_iff.
Qed.

(** ** The logarithm of values at or below -1 (C7) *)

Lemma np_log_below (ln : Q -> Q) (v : Q) :
  (v == -1 -> np_log ln (fadd (Fin v) (Fin 1)) = NegInf) /\
  (v < -1 -> np_log ln (fadd (Fin v) (Fin 1)) = NaN).
Proof.
  simpl. destruct (Qcompare_cases (v + 1) 0) as [[-> H]|[[-> H]|[-> H]]];
    split; intros Hv; try reflexivity; exfalso; lra.
Qed.

(** C7, as the code has it. With [log_scale=True] neither
    [find_outliers_iqr] nor [find_outliers_z_score] raises on values at or
    below -1: both return their two frames as soon as the column exists.
    A value of -1 is transformed to -inf. A value below -1 is transformed
    to NaN, every comparison of it with a bound is false, and its row is
    in neither returned frame. *)
Theorem log_scale_never_raises (ln sqrt : Q -> Q) (data : DataFrame)
  (feature : string) (left right : float64) :
  In feature (columns data) ->
  exists j li lz,
    index_of feature (columns data) = Some j /\
    iqr_locals ln data feature left right true = Ok li /\
    find_outliers_iqr ln data feature left right true = Ok (outliers li, cleaned li) /\
    z_score_locals ln sqrt data feature left right true = Ok lz /\
    find_outliers_z_score ln sqrt data feature left right true =
    Ok (outliers lz, cleaned lz) /\
    forall r v, In r (rows data) -> nth j (cells r) NaN = Fin v ->
      (v == -1 -> row_x ln j true r = NegInf) /\
      (v < -1 ->
       row_x ln j true r = NaN /\
       ~ In r (rows (outliers li)) /\ ~ In r (rows (cleaned li)) /\
       ~ In r (rows (outliers lz)) /\ ~ In r (rows (cleaned lz))).
Proof.
  intros Hin. destruct (index_of_some _ _ Hin) as [j Hj].
  assert (Hi : exists li, iqr_locals ln data feature left right true = Ok li).
  { unfold iqr_locals. rewrite (feature_values_ok _ _ _ _ _ Hj). simpl. eauto. }
  assert (Hz : exists lz, z_score_locals ln sqrt data feature left right true = Ok lz).
  { unfold z_score_locals. rewrite (feature_values_ok _ _ _ _ _ Hj). simpl. eauto. }
  destruct Hi as [li Hi], Hz as [lz Hz].
  exists j, li, lz. split; [exact Hj|].
  split; [exact Hi|]. split; [unfold find_outliers_iqr; now rewrite Hi|].
  split; [exact Hz|]. split; [unfold find_outliers_z_score; now rewrite Hz|].
  intros r v Hr Hv.
  assert (Hx : row_x ln j true r = np_log ln (fadd (Fin v) (Fin 1)))
    by (unfold row_x; now rewrite Hv).
  destruct (np_log_below ln v) as [H1 H2].
  split; [intros E; now rewrite Hx, H1|].
  intros Hlt. rewrite Hx, (H2 Hlt).
  assert (Ri : run_of ln sqrt data feature left right true li) by (left; exact Hi).
  assert (Rz : run_of ln sqrt data feature left right true lz) by (right; left; exact Hz).
  destruct (run_of_members _ _ _ _ _ _ _ _ _ Ri Hj r) as [Io Ic].
  destruct (run_of_members _ _ _ _ _ _ _ _ _ Rz Hj r) as [Zo Zc].
  rewrite Io, Ic, Zo, Zc, Hx, (H2 Hlt). unfold fgtb.
  rewrite !fltb_nan_r. simpl.
  repeat split; intros [_ H]; try destruct H; discriminate.
Qed.

(** C7 as stated fails: on the values -2, 0, 1, 3, 50 with
    [log_scale=True] both functions return normally; the row with -2 is
    silently left out of both frames. *)
Lemma negative_value_returns_normally :
  find_outliers_iqr ln_approx with_negative "v" (Fin (3 # 2)) (Fin (3 # 2)) true =
  Ok (mkDataFrame ["v"] [], mkDataFrame ["v"] (tl (rows with_negative))) /\
  find_outliers_z_score ln_approx sqrt_approx with_negative "v" (Fin 3) (Fin 3) true =
  Ok (mkDataFrame ["v"] [], mkDataFrame ["v"] (tl (rows with_negative))).
Proof.
  split; vm_compute; reflexivity.
Qed.

(** ** Sorting *)

Lemma dropna_not_nan (x : Series) : Forall (fun v => isnan v = false) (dropna x).
Proof.
  apply Forall_forall. intros v Hv. apply filter_In in Hv.
  destruct Hv as [_ Hv]. now apply negb_true_iff in Hv.
Qed.

Lemma insert_sorted_forall (P : float64 -> Prop) (v : float64) (s : Series) :
  P v -> Forall P s -> Forall P (insert_sorted v s).
Proof.
  intros Hv Hs. induction Hs as [|w s Hw Hs IH]; simpl.
  - now constructor.
  - destruct (fleb v w); repeat constructor; assumption.
Qed.

Lemma sort_values_forall (P : float64 -> Prop) (x : Series) :
  Forall P x -> Forall P (sort_values x).
Proof.
  intros H. induction H as [|v x Hv Hx IH]; simpl; [constructor|].
  now apply insert_sorted_forall.
Qed.

Lemma insert_sorted_length (v : float64) (s : Series) :
  List.length (insert_sorted v s) = S (List.length s).
Proof.
  induction s as [|w s IH]; simpl; [reflexivity|].
  destruct (fleb v w); simpl; [reflexivity | now rewrite IH].
Qed.

Lemma sort_values_length (x : Series) : List.length (sort_values x) = List.length x.
Proof.
  induction x as [|v x IH]; simpl; [reflexivity|].
  now rewrite insert_sorted_length, IH.
Qed.

Lemma insert_sorted_sorted (v : float64) (s : Series) :
  isnan v = false -> Forall (fun w => isnan w = false) s ->
  StronglySorted fle s -> StronglySorted fle (insert_sorted v s).
Proof.
  intros Hv Hn Hs. induction Hs as [|w s Hs IH Hw]; simpl.
  - repeat constructor.
  - apply Forall_cons_iff in Hn. destruct Hn as [Hwn Hn].
    destruct (fleb v w) eqn:E.
    + constructor; [now constructor|]. constructor; [exact E|].
      eapply Forall_impl; [|exact Hw]. intros u Hu. exact (fleb_trans _ _ _ E Hu).
    + constructor; [now apply IH|].
      apply insert_sorted_forall; [|exact Hw].
      now apply fleb_total.
Qed.

Lemma insert_sorted_perm (v : float64) (s : Series) :
  Permutation (v :: s) (insert_sorted v s).
Proof.
  induction s as [|w s IH]; simpl; [reflexivity|].
  destruct (fleb v w); [reflexivity|].
  rewrite perm_swap. now apply perm_skip.
Qed.

Lemma sort_values_perm (x : Series) : Permutation x (sort_values x).
Proof.
  induction x as [|v x IH]; simpl; [constructor|].
  rewrite <- insert_sorted_perm. now apply perm_skip.
Qed.

Lemma sort_values_sorted (x : Series) :
  Forall (fun w => isnan w = false) x -> StronglySorted fle (sort_values x).
Proof.
  intros H. induction H as [|v x Hv Hx IH]; simpl; [constructor|].
  apply insert_sorted_sorted; [exact Hv | now apply sort_values_forall | exact IH].
Qed.

Lemma sorted_nth (s : Series) (i j : nat) :
  StronglySorted fle s -> Forall (fun w => isnan w = false) s ->
  (i <= j)%nat -> (j < List.length s)%nat ->
  fle (nth i s NaN) (nth j s NaN).
Proof.
  intros Hs. revert i j. induction Hs as [|v s Hs IH Hv]; intros i j Hn Hij Hj.
  - simpl in Hj. lia.
  - apply Forall_cons_iff in Hn. destruct Hn as [Hvn Hn].
    destruct i as [|i], j as [|j]; simpl in *; try lia.
    + now apply fleb_refl.
    + rewrite Forall_forall in Hv. apply Hv. apply nth_In. lia.
    + apply IH; [exact Hn | lia | lia].
Qed.

(** ** Linear interpolation *)

(** Case analysis on the sign of the interpolation fraction, wherever an
    infinity is multiplied by it. *)
Ltac sign_cases t :=
  let H := fresh "Hsign" in
  destruct (Qcompare_cases t 0) as [[-> H]|[[-> H]|[-> H]]].

Lemma lerp_fin (a b t : Q) : exists v, lerp (Fin a) (Fin b) t = Fin v /\ v == a + (b - a) * t.
Proof.
  unfold lerp. destruct (Qle_bool (1 # 2) t); simpl; eexists; split; try reflexivity; ring.
Qed.

Lemma virtual_index_range (s : Series) (p : Q) :
  0 <= p <= 1 ->
  0 <= inject_Z (Z.of_nat (List.length s - 1)) * p <=
  inject_Z (Z.of_nat (List.length s - 1)).
Proof.
  intros Rp.
  assert (H : 0 <= inject_Z (Z.of_nat (List.length s - 1))).
  { change 0 with (inject_Z 0). rewrite <- Zle_Qle. lia. }
  split; nra.
Qed.

Lemma previous_range (s : Series) (p : Q) :
  0 <= p <= 1 ->
  (0 <= Qfloor (inject_Z (Z.of_nat (List.length s - 1)) * p) <=
   Z.of_nat (List.length s - 1))%Z.
Proof.
  intros Rp. destruct (virtual_index_range s p Rp) as [H0 H1]. split.
  - pose proof (Qfloor_resp_le _ _ H0) as H. exact H.
  - pose proof (Qfloor_resp_le _ _ H1) as H.
    now rewrite Qfloor_Z in H.
Qed.

(** ** Bounds that move apart (towards C6) *)

Lemma spread_of_fle (a b : float64) :
  (isnan a = false -> isnan b = false -> fle a b) -> spread (fsub b a).
Proof.
  unfold fle, fsub.
  destruct a as [| |a|], b as [| |b|]; simpl; intros H; auto;
    try (specialize (H eq_refl eq_refl); try discriminate).
  qbool. lra.
Qed.

Lemma spread_np_sqrt (sqrt : Q -> Q) (v : float64) :
  (forall q, 0 <= q -> 0 <= sqrt q) -> spread (np_sqrt sqrt v).
Proof.
  intros Hsqrt. destruct v as [| |q|]; simpl; auto.
  destruct (Qltb q 0) eqn:E; simpl; auto. qbool. now apply Hsqrt.
Qed.

(** A larger multiplier on the lower side only lowers the lower bound,
    whichever way round the product is written. *)
Lemma lower_antitone (c s x : float64) (l l' : Q) :
  spread s -> l <= l' ->
  (fltb x (fsub c (fmul s (Fin l'))) = true -> fltb x (fsub c (fmul s (Fin l))) = true) /\
  (fltb x (fsub c (fmul (Fin l') s)) = true -> fltb x (fsub c (fmul (Fin l) s)) = true).
Proof.
  unfold fsub. intros Hs Hl.
  destruct c as [| |c|], s as [| |s|], x as [| |x|]; simpl in *;
    try contradiction; try (split; congruence);
    unfold inf_times;
    try (sign_cases l; sign_cases l'; simpl; try (split; congruence); exfalso; lra).
  split; intros H; qbool; nra.
Qed.

Lemma upper_antitone (c s x : float64) (r r' : Q) :
  spread s -> r <= r' ->
  (fgtb x (fadd c (fmul s (Fin r'))) = true -> fgtb x (fadd c (fmul s (Fin r))) = true) /\
  (fgtb x (fadd c (fmul (Fin r') s)) = true -> fgtb x (fadd c (fmul (Fin r) s)) = true).
Proof.
  unfold fgtb. intros Hs Hr.
  destruct c as [| |c|], s as [| |s|], x as [| |x|]; simpl in *;
    try contradiction; try (split; congruence);
    unfold inf_times;
    try (sign_cases r; sign_cases r'; simpl; try (split; congruence); exfalso; lra).
  split; intros H; qbool; nra.
Qed.

(** ** What each function computes *)

Lemma iqr_locals_inv (ln : Q -> Q) (data : DataFrame) (feature : string)
  (left right : float64) (log_scale : bool) (loc : locals) :
  iqr_locals ln data feature left right log_scale = Ok loc ->
  exists j, index_of feature (columns data) = Some j /\
    let x := map (row_x ln j log_scale) (rows data) in
    let q1 := nanpercentile x (1 # 4) in
    let q3 := nanpercentile x (3 # 4) in
    loc = partition data x (fsub q1 (fmul (fsub q3 q1) left))
            (fadd q3 (fmul (fsub q3 q1) right)).
Proof.
  intros H. destruct (index_of feature (columns data)) as [j|] eqn:Hj.
  - exists j. split; [reflexivity|]. unfold iqr_locals in H.
    rewrite (feature_values_ok _ _ _ _ _ Hj) in H. simpl in H. now injection H as <-.
  - unfold iqr_locals in H. now rewrite (feature_values_err _ _ _ _ Hj) in H.
Qed.

Lemma z_score_locals_inv (ln sqrt : Q -> Q) (data : DataFrame) (feature : string)
  (left right : float64) (log_scale : bool) (loc : locals) :
  z_score_locals ln sqrt data feature left right log_scale = Ok loc ->
  exists j, index_of feature (columns data) = Some j /\
    let x := map (row_x ln j log_scale) (rows data) in
    loc = partition data x (fsub (mean x) (fmul left (std sqrt x)))
            (fadd (mean x) (fmul right (std sqrt x))).
Proof.
  intros H. destruct (index_of feature (columns data)) as [j|] eqn:Hj.
  - exists j. split; [reflexivity|]. unfold z_score_locals in H.
    rewrite (feature_values_ok _ _ _ _ _ Hj) in H. simpl in H. now injection H as <-.
  - unfold z_score_locals in H. now rewrite (feature_values_err _ _ _ _ Hj) in H.
Qed.

Lemma quantile_locals_inv (data : DataFrame) (feature : string)
  (left right : float64) (loc : locals) :
  quantile_locals data feature left right = Ok loc ->
  exists j p q, index_of feature (columns data) = Some j /\
    left = Fin p /\ right = Fin q /\ 0 <= p <= 1 /\ 0 <= q <= 1 /\
    let x := map (fun r => nth j (cells r) NaN) (rows data) in
    getitem data feature = Ok x /\
    loc = partition data x (nanpercentile x p) (nanpercentile x q).
Proof.
  intros H. destruct (index_of feature (columns data)) as [j|] eqn:Hj.
  - unfold quantile_locals in H.
    assert (Hg : getitem data feature = Ok (map (fun r => nth j (cells r) NaN) (rows data)))
      by (unfold getitem; now rewrite Hj).
    rewrite Hg in H. simpl in H.
    apply bind_ok_inv in H. destruct H as (lb & Hlb & H).
    apply bind_ok_inv in H. destruct H as (ub & Hub & H).
    apply quantile_inv in Hlb. destruct Hlb as (p & -> & Rp & ->).
    apply quantile_inv in Hub. destruct Hub as (q & -> & Rq & ->).
    exists j, p, q. injection H as <-. auto 10.
  - unfold quantile_locals in H. now rewrite (getitem_err _ _ Hj) in H.
Qed.

Lemma find_outliers_iqr_inv (ln : Q -> Q) (data : DataFrame) (feature : string)
  (left right : float64) (log_scale : bool) (o c : DataFrame) :
  find_outliers_iqr ln data feature left right log_scale = Ok (o, c) ->
  exists loc, iqr_locals ln data feature left right log_scale = Ok loc /\
    o = outliers loc /\ c = cleaned loc.
Proof.
  intros H. apply bind_ok_inv in H. destruct H as (loc & Hl & [= <- <-]). eauto.
Qed.

Lemma find_outliers_z_score_inv (ln sqrt : Q -> Q) (data : DataFrame) (feature : string)
  (left right : float64) (log_scale : bool) (o c : DataFrame) :
  find_outliers_z_score ln sqrt data feature left right log_scale = Ok (o, c) ->
  exists loc, z_score_locals ln sqrt data feature left right log_scale = Ok loc /\
    o = outliers loc /\ c = cleaned loc.
Proof.
  intros H. apply bind_ok_inv in H. destruct H as (loc & Hl & [= <- <-]). eauto.
Qed.

Lemma find_outliers_quantile_inv (data : DataFrame) (feature : string)
  (left right : float64) (o c : DataFrame) :
  find_outliers_quantile data feature left right = Ok (o, c) ->
  exists loc, quantile_locals data feature left right = Ok loc /\
    o = outliers loc /\ c = cleaned loc.
Proof.
  intros H. apply bind_ok_inv in H. destruct H as (loc & Hl & [= <- <-]). eauto.
Qed.

(** ** Monotonicity (C6) *)



(** ** Inverted quantiles (C9) *)



(** ** NaN bounds (C10) *)

Lemma var_few (x : Series) : (List.length (dropna x) <= 1)%nat -> var x = NaN.
Proof.
  intros H. unfold var. apply Nat.leb_le in H. now rewrite H.
Qed.

Lemma nanpercentile_none (x : Series) (p : Q) : dropna x = [] -> nanpercentile x p = NaN.
Proof.
  intros H. unfold nanpercentile. now rewrite H.
Qed.

Lemma nan_bounds_no_rows (data : DataFrame) (f : Row -> float64) :
  no_rows (partition data (map f (rows data)) NaN NaN).
Proof.
  unfold no_rows. rewrite partition_outliers, partition_cleaned.
  split; apply filter_nil_iff; intros r _; unfold fgtb;
    now rewrite fltb_nan_r.
Qed.

(** C10, as the code has it. When the column exists,
    [find_outliers_iqr] and [find_outliers_z_score] raise nothing, and so
    does [find_outliers_quantile] for probabilities in [0, 1]. A column
    without any value gives two NaN bounds and two empty frames in all
    three; a column with a single value does so in
    [find_outliers_z_score]. In every call, two NaN bounds give two empty
    frames; a single NaN bound gives an empty cleaned frame, while the
    outliers are the rows beyond the other bound. *)
Theorem nan_bound_empty_frames (ln sqrt : Q -> Q) (data : DataFrame)
  (feature : string) (left right : float64) (log_scale : bool) :
  In feature (columns data) ->
  exists j li lz,
    index_of feature (columns data) = Some j /\
    iqr_locals ln data feature left right log_scale = Ok li /\
    z_score_locals ln sqrt data feature left right log_scale = Ok lz /\
    let x := map (row_x ln j log_scale) (rows data) in
    (dropna x = [] ->
     (lower_bound li = NaN /\ upper_bound li = NaN /\ no_rows li) /\
     (lower_bound lz = NaN /\ upper_bound lz = NaN /\ no_rows lz)) /\
    (List.length (dropna x) = 1%nat ->
     lower_bound lz = NaN /\ upper_bound lz = NaN /\ no_rows lz) /\
    (log_scale = false -> probability left -> probability right ->
     exists lq,
       quantile_locals data feature left right = Ok lq /\
       (dropna x = [] -> lower_bound lq = NaN /\ upper_bound lq = NaN /\ no_rows lq)) /\
    (forall l, run_of ln sqrt data feature left right log_scale l ->
       (lower_bound l = NaN -> upper_bound l = NaN -> no_rows l) /\
       (nan_bound l ->
        rows (cleaned l) = [] /\
        forall r, In r (rows (outliers l)) <->
          In r (rows data) /\
          ((isnan (lower_bound l) = true /\
            fgtb (row_x ln j log_scale r) (upper_bound l) = true) \/
           (isnan (upper_bound l) = true /\
            fltb (row_x ln j log_scale r) (lower_bound l) = true)))).
Proof.
  intros Hin. destruct (index_of_some _ _ Hin) as [j Hj].
  set (x := map (row_x ln j log_scale) (rows data)).
  set (q1 := nanpercentile x (1 # 4)). set (q3 := nanpercentile x (3 # 4)).
  exists j,
    (partition data x (fsub q1 (fmul (fsub q3 q1) left))
       (fadd q3 (fmul (fsub q3 q1) right))),
    (partition data x (fsub (mean x) (fmul left (std sqrt x)))
       (fadd (mean x) (fmul right (std sqrt x)))).
  split; [exact Hj|].
  split; [unfold iqr_locals; now rewrite (feature_values_ok _ _ _ _ _ Hj)|].
  split; [unfold z_score_locals; now rewrite (feature_values_ok _ _ _ _ _ Hj)|].
  cbv zeta. fold x.
  assert (Zfew : (List.length (dropna x) <= 1)%nat ->
                 fsub (mean x) (fmul left (std sqrt x)) = NaN /\
                 fadd (mean x) (fmul right (std sqrt x)) = NaN).
  { intros Hfew. unfold std. rewrite (var_few x Hfew). simpl.
    destruct (mean x), left, right; auto. }
  split; [|split; [|split]].
  - intros Hnone.
    destruct Zfew as [-> ->]; [rewrite Hnone; simpl; lia|].
    unfold q1, q3. rewrite !(nanpercentile_none x _ Hnone).
    simpl.
    split; (split; [reflexivity | split; [reflexivity | apply nan_bounds_no_rows]]).
  - intros Hone. destruct Zfew as [-> ->]; [lia|].
    simpl. split; [reflexivity | split; [reflexivity | apply nan_bounds_no_rows]].
  - intros -> Hl Hr.
    destruct Hl as (p & -> & Rp). destruct Hr as (q & -> & Rq).
    assert (Ex : x = map (fun r => nth j (cells r) NaN) (rows data)) by reflexivity.
    exists (partition data x (nanpercentile x p) (nanpercentile x q)).
    split.
    + unfold quantile_locals, getitem. rewrite Hj. simpl.
      rewrite !quantile_ok by assumption. reflexivity.
    + intros Hnone. rewrite !(nanpercentile_none x _ Hnone). simpl.
      split; [reflexivity | split; [reflexivity | apply nan_bounds_no_rows]].
  - intros l Hrun.
    destruct (run_of_partition _ _ _ _ _ _ _ _ Hrun) as (j' & Hj' & Hl).
    assert (j' = j) by congruence. subst j'. fold x in Hl.
    split.
    + intros El Eu. rewrite Hl, El, Eu. apply nan_bounds_no_rows.
    + intros Hb. split.
      * rewrite Hl at 1. unfold x. rewrite partition_cleaned.
        apply filter_nil_iff. intros r _. unfold fgtb.
        destruct Hb as [N|N].
        -- destruct (lower_bound l); try discriminate. reflexivity.
        -- destruct (upper_bound l); try discriminate.
           rewrite fltb_nan_r. apply andb_false_r.
      * intros r.
        destruct (run_of_members _ _ _ _ _ _ _ _ _ Hrun Hj r) as [Ho _].
        rewrite Ho. unfold fgtb. split.
        -- intros [Hr [H|H]]; (split; [exact Hr|]).
           ++ destruct Hb as [N|N].
              ** destruct (lower_bound l); try discriminate.
                 rewrite fltb_nan_r in H. discriminate.
              ** right. split; assumption.
           ++ destruct Hb as [N|N].
              ** left. split; assumption.
              ** destruct (upper_bound l); discriminate.
        -- intros [Hr [[_ H]|[_ H]]]; split; auto.
Qed.

(** C10 as stated fails when only one bound is NaN: on the column 1, 2,
    +inf [find_outliers_quantile] with 0.25 and 0.75 has the lower bound
    1.5 and a NaN upper bound, and returns the row with 1 as an outlier. *)
Lemma one_nan_bound_keeps_outliers :
  exists l,
    quantile_locals with_infinity "v" (Fin (1 # 4)) (Fin (3 # 4)) = Ok l /\
    feqb (lower_bound l) (Fin (3 # 2)) = true /\
    upper_bound l = NaN /\
    rows (outliers l) = [mkRow 0 [Fin 1]] /\
    rows (cleaned l) = [].
Proof.
  eexists. split; [vm_compute; reflexivity|]. repeat split; reflexivity.
Qed.

(** ** The theorems at concrete frames *)

Lemma sqrt_approx_nonneg (q : Q) : 0 <= q -> 0 <= sqrt_approx q.
Proof.
  intros _. unfold sqrt_approx, Qle. simpl. rewrite Z.mul_1_r. apply Z.sqrt_nonneg.
Qed.

Lemma three_way_split_witness :
  exists l,
    run_of ln_approx sqrt_approx scenario_a "value" (Fin (3 # 2)) (Fin (3 # 2)) false l /\
    exists j, index_of "value" (columns scenario_a) = Some j /\
      forall r, In r (rows scenario_a) ->
        let x := row_x ln_approx j false r in
        (fltb x (lower_bound l) = true \/ fgtb x (upper_bound l) = true ->
         In r (rows (outliers l))) /\
        (fgtb x (lower_bound l) = true /\ fltb x (upper_bound l) = true ->
         In r (rows (cleaned l))) /\
        (feqb x (lower_bound l) = true \/ feqb x (upper_bound l) = true ->
         ~ In r (rows (cleaned l)) /\
         (In r (rows (outliers l)) <->
          fltb x (lower_bound l) = true \/ fgtb x (upper_bound l) = true) /\
         (fleb (lower_bound l) (upper_bound l) = true -> ~ In r (rows (outliers l)))).
Proof.
  eexists. split.
  - left. vm_compute. reflexivity.
  - apply (three_way_split ln_approx sqrt_approx scenario_a "value"
             (Fin (3 # 2)) (Fin (3 # 2)) false).
    left. vm_compute. reflexivity.
Defined.

Lemma outliers_cleaned_disjoint_witness :
  returns ln_approx sqrt_approx scenario_a "value" (Fin (3 # 2)) (Fin (3 # 2)) false
    (scenario_a_outliers, scenario_a_cleaned) /\
  (exists m_out m_clean,
      scenario_a_outliers = boolean_index scenario_a m_out /\
      scenario_a_cleaned = boolean_index scenario_a m_clean /\
      List.length m_out = List.length (rows scenario_a) /\
      List.length m_clean = List.length (rows scenario_a) /\
      forall i, (nth i m_out false && nth i m_clean false)%bool = false) /\
  (forall r, In r (rows scenario_a_outliers) -> In r (rows scenario_a_cleaned) -> False).
Proof.
  split.
  - left. vm_compute. reflexivity.
  - apply (outliers_cleaned_disjoint ln_approx sqrt_approx scenario_a "value"
             (Fin (3 # 2)) (Fin (3 # 2)) false).
    left. vm_compute. reflexivity.
Defined.

Lemma outputs_are_input_rows_witness :
  returns ln_approx sqrt_approx with_negative "v" (Fin 1) (Fin 1) true
    (mkDataFrame ["v"] [mkRow 4 [Fin 50]],
     mkDataFrame ["v"] [mkRow 1 [Fin 0]; mkRow 2 [Fin 1]; mkRow 3 [Fin 3]]) /\
  columns (mkDataFrame ["v"] [mkRow 4 [Fin 50]]) = columns with_negative /\
  columns (mkDataFrame ["v"] [mkRow 1 [Fin 0]; mkRow 2 [Fin 1]; mkRow 3 [Fin 3]]) =
  columns with_negative /\
  incl (rows (mkDataFrame ["v"] [mkRow 4 [Fin 50]])) (rows with_negative) /\
  incl (rows (mkDataFrame ["v"] [mkRow 1 [Fin 0]; mkRow 2 [Fin 1]; mkRow 3 [Fin 3]]))
    (rows with_negative) /\
  exists keep_o keep_c,
    rows (mkDataFrame ["v"] [mkRow 4 [Fin 50]]) = filter keep_o (rows with_negative) /\
    rows (mkDataFrame ["v"] [mkRow 1 [Fin 0]; mkRow 2 [Fin 1]; mkRow 3 [Fin 3]]) =
    filter keep_c (rows with_negative).
Proof.
  split.
  - right. left. vm_compute. reflexivity.
  - apply (outputs_are_input_rows ln_approx sqrt_approx with_negative "v"
             (Fin 1) (Fin 1) true).
    right. left. vm_compute. reflexivity.
Defined.

Lemma missing_column_raises_witness :
  ~ In "price" (columns scenario_a) /\
  find_outliers_iqr ln_approx scenario_a "price" (Fin (3 # 2)) (Fin (3 # 2)) true =
  Err (KeyError "price") /\
  find_outliers_z_score ln_approx sqrt_approx scenario_a "price" (Fin (3 # 2))
    (Fin (3 # 2)) true = Err (KeyError "price") /\
  find_outliers_quantile scenario_a "price" (Fin (3 # 2)) (Fin (3 # 2)) =
  Err (KeyError "price").
Proof.
  assert (H : ~ In "price" (columns scenario_a)).
  { simpl. intros [H|[]]. discriminate. }
  split; [exact H|].
  exact (missing_column_raises ln_approx sqrt_approx scenario_a "price"
           (Fin (3 # 2)) (Fin (3 # 2)) true H).
Defined.

Lemma zero_variance_collapses_witness :
  (exists l,
      z_score_locals ln_approx sqrt_approx sevens_and_missing "v" (Fin 3) (Fin 3) false =
      Ok l /\
      feqb (std sqrt_approx (loc_x l)) (Fin 0) = true /\
      feqb (mean (loc_x l)) (Fin 7) = true /\
      feqb (lower_bound l) (Fin 7) = true /\ feqb (upper_bound l) (Fin 7) = true /\
      feqb (lower_bound l) (mean (loc_x l)) = true /\
      feqb (upper_bound l) (mean (loc_x l)) = true /\
      (~ In (mkRow 0 [Fin 7]) (rows (outliers l)) /\
       ~ In (mkRow 0 [Fin 7]) (rows (cleaned l))) /\
      (~ In (mkRow 2 [NaN]) (rows (outliers l)) /\
       ~ In (mkRow 2 [NaN]) (rows (cleaned l)))) /\
  (exists l,
      z_score_locals ln_approx sqrt_approx three_values "v" (Fin 0) (Fin 0) false = Ok l /\
      isfinite (std sqrt_approx (loc_x l)) = true /\
      feqb (mean (loc_x l)) (Fin 2) = true /\
      feqb (lower_bound l) (mean (loc_x l)) = true /\
      feqb (upper_bound l) (mean (loc_x l)) = true /\
      In (mkRow 0 [Fin 1]) (rows (outliers l)) /\
      In (mkRow 2 [Fin 3]) (rows (outliers l)) /\
      (~ In (mkRow 1 [Fin 2]) (rows (outliers l)) /\
       ~ In (mkRow 1 [Fin 2]) (rows (cleaned l)))).
Proof.
  split.
  - eexists.
    assert (R : z_score_locals ln_approx sqrt_approx sevens_and_missing "v" (Fin 3) (Fin 3)
                  false = Ok _) by (vm_compute; reflexivity).
    split; [exact R|].
    split; [vm_compute; reflexivity|]. split; [vm_compute; reflexivity|].
    split; [vm_compute; reflexivity|]. split; [vm_compute; reflexivity|].
    destruct (zero_variance_collapses ln_approx sqrt_approx sevens_and_missing "v" 3 3
                false _ R (or_introl eq_refl)) as (Hlb & Hub & j & Hj & Hrows).
    vm_compute in Hj. injection Hj as <-.
    split; [exact Hlb|]. split; [exact Hub|]. split.
    + apply (Hrows (mkRow 0 [Fin 7])); [left; reflexivity | left; reflexivity].
    + apply (Hrows (mkRow 2 [NaN])); [right; right; left; reflexivity | right; reflexivity].
  - eexists.
    assert (R : z_score_locals ln_approx sqrt_approx three_values "v" (Fin 0) (Fin 0)
                  false = Ok _) by (vm_compute; reflexivity).
    split; [exact R|].
    split; [vm_compute; reflexivity|]. split; [vm_compute; reflexivity|].
    assert (Z : 0 == 0) by reflexivity.
    destruct (zero_variance_collapses ln_approx sqrt_approx three_values "v" 0 0
                false _ R (or_intror (conj eq_refl (conj Z Z))))
      as (Hlb & Hub & j & Hj & Hrows).
    vm_compute in Hj. injection Hj as <-.
    split; [exact Hlb|]. split; [exact Hub|].
    split; [apply (Hrows (mkRow 0 [Fin 1])); [left; reflexivity | reflexivity | reflexivity]|].
    split; [apply (Hrows (mkRow 2 [Fin 3]));
            [right; right; left; reflexivity | reflexivity | reflexivity]|].
    apply (Hrows (mkRow 1 [Fin 2])); [right; left; reflexivity | left; reflexivity].
Defined.


Lemma log_scale_never_raises_witness :
  In "v" (columns with_negative) /\
  exists j li lz,
    index_of "v" (columns with_negative) = Some j /\
    iqr_locals ln_approx with_negative "v" (Fin (3 # 2)) (Fin (3 # 2)) true = Ok li /\
    find_outliers_iqr ln_approx with_negative "v" (Fin (3 # 2)) (Fin (3 # 2)) true =
    Ok (outliers li, cleaned li) /\
    z_score_locals ln_approx sqrt_approx with_negative "v" (Fin (3 # 2)) (Fin (3 # 2)) true =
    Ok lz /\
    find_outliers_z_score ln_approx sqrt_approx with_negative "v" (Fin (3 # 2))
      (Fin (3 # 2)) true = Ok (outliers lz, cleaned lz) /\
    forall r v, In r (rows with_negative) -> nth j (cells r) NaN = Fin v ->
      (v == -1 -> row_x ln_approx j true r = NegInf) /\
      (v < -1 ->
       row_x ln_approx j true r = NaN /\
       ~ In r (rows (outliers li)) /\ ~ In r (rows (cleaned li)) /\
       ~ In r (rows (outliers lz)) /\ ~ In r (rows (cleaned lz))).
Proof.
  assert (H : In "v" (columns with_negative)) by (simpl; left; reflexivity).
  split; [exact H|].
  exact (log_scale_never_raises ln_approx sqrt_approx with_negative "v"
           (Fin (3 # 2)) (Fin (3 # 2)) H).
Defined.


Lemma nan_bound_empty_frames_witness :
  In "v" (columns single_row) /\
  exists lz,
    z_score_locals ln_approx sqrt_approx single_row "v" (Fin 3) (Fin 3) false = Ok lz /\
    List.length (dropna (loc_x lz)) = 1%nat /\
    lower_bound lz = NaN /\ upper_bound lz = NaN /\ no_rows lz /\
    find_outliers_z_score ln_approx sqrt_approx single_row "v" (Fin 3) (Fin 3) false =
    Ok (mkDataFrame ["v"] [], mkDataFrame ["v"] []).
Proof.
  assert (H : In "v" (columns single_row)) by (simpl; left; reflexivity).
  split; [exact H|].
  destruct (nan_bound_empty_frames ln_approx sqrt_approx single_row "v" (Fin 3) (Fin 3)
              false H)
    as (j & li & lz & Hj & Hi & Hz & Hnone & Hone & Hq & Hany).
  vm_compute in Hj. injection Hj as <-.
  exists lz. split; [exact Hz|].
  assert (E : Ok lz = Ok (partition single_row [Fin 5] NaN NaN))
    by (rewrite <- Hz; vm_compute; reflexivity).
  injection E as ->.
  split; [reflexivity|].
  split; [apply Hone; reflexivity|]. split; [apply Hone; reflexivity|].
  split; [apply Hone; reflexivity|].
  vm_compute. reflexivity.
Defined.

(** * Further properties of the three functions *)

(** ** Probabilities outside [0, 1] *)

Lemma validate_percentile_ok (q : float64) :
  probability q -> exists p, q = Fin p /\ 0 <= p <= 1 /\ validate_percentile q = Ok p.
Proof.
  intros (p & -> & H0 & H1). exists p. repeat split; try assumption.
  simpl. apply Qle_bool_iff in H0, H1. now rewrite H0, H1.
Qed.

Lemma validate_percentile_err (q : float64) :
  ~ probability q -> validate_percentile q = Err ValueError.
Proof.
  intros H. destruct q as [| |p|]; simpl; try reflexivity.
  destruct (Qle_bool 0 p) eqn:E0; simpl; [|reflexivity].
  destruct (Qle_bool p 1) eqn:E1; simpl; [|reflexivity].
  exfalso. apply H. exists p. qbool. auto.
Qed.

(** X1. When the column exists, [find_outliers_quantile] returns its two
    frames exactly when both [left] and [right] are probabilities in
    [0, 1]; otherwise it raises ValueError and returns nothing. *)
Theorem quantile_probability_check (data : DataFrame) (feature : string)
  (left right : float64) :
  In feature (columns data) ->
  (probability left /\ probability right ->
   exists o c, find_outliers_quantile data feature left right = Ok (o, c)) /\
  (~ probability left \/ ~ probability right ->
   find_outliers_quantile data feature left right = Err ValueError).
Proof.
  intros Hin. destruct (index_of_some _ _ Hin) as [j Hj].
  unfold find_outliers_quantile, quantile_locals, getitem, quantile. rewrite Hj. simpl.
  split.
  - intros [Hl Hr].
    destruct (validate_percentile_ok _ Hl) as (p & _ & _ & ->).
    destruct (validate_percentile_ok _ Hr) as (q & _ & _ & ->).
    simpl. eauto.
  - intros [H|H].
    + now rewrite (validate_percentile_err _ H).
    + rewrite (validate_percentile_err _ H).
      destruct left as [| |p|]; simpl; try reflexivity.
      destruct (Qle_bool 0 p && Qle_bool p 1)%bool; reflexivity.
Qed.

Lemma quantile_probability_check_witness :
  In "v" (columns three_values) /\
  (~ probability (Fin (3 # 2)) \/ ~ probability (Fin (1 # 2))) /\
  find_outliers_quantile three_values "v" (Fin (3 # 2)) (Fin (1 # 2)) = Err ValueError.
Proof.
  assert (H : In "v" (columns three_values)) by (simpl; left; reflexivity).
  assert (N : ~ probability (Fin (3 # 2)) \/ ~ probability (Fin (1 # 2))).
  { left. intros (p & [= <-] & _ & H1). revert H1. unfold Qle. simpl. lia. }
  split; [exact H|]. split; [exact N|].
  exact (proj2 (quantile_probability_check three_values "v" (Fin (3 # 2)) (Fin (1 # 2)) H) N).
Defined.

(** ** No row is counted twice, and which rows are lost *)

Lemma filter_disjoint_length {A : Type} (p q : A -> bool) (l : list A) :
  (forall a, In a l -> (p a && q a)%bool = false) ->
  (List.length (filter p l) + List.length (filter q l) <= List.length l)%nat.
Proof.
  induction l as [|a l IH]; intros H; simpl; [lia|].
  assert (IH' := IH (fun b Hb => H b (or_intror Hb))).
  specialize (H a (or_introl eq_refl)).
  destruct (p a), (q a); simpl in *; try discriminate; lia.
Qed.

Lemma filter_cover_length {A : Type} (p q : A -> bool) (l : list A) :
  (forall a, In a l -> (p a && q a)%bool = false) ->
  (forall a, In a l -> (p a || q a)%bool = true) ->
  (List.length (filter p l) + List.length (filter q l) = List.length l)%nat.
Proof.
  induction l as [|a l IH]; intros H C; simpl; [lia|].
  assert (IH' := IH (fun b Hb => H b (or_intror Hb)) (fun b Hb => C b (or_intror Hb))).
  specialize (H a (or_introl eq_refl)). specialize (C a (or_introl eq_refl)).
  destruct (p a), (q a); simpl in *; try discriminate; lia.
Qed.

Lemma number_trichotomy (x b : float64) :
  isnan x = false -> isnan b = false -> feqb x b = false ->
  fltb x b = true \/ fltb b x = true.
Proof.
  destruct x as [| |x|], b as [| |b|]; simpl; try discriminate; auto.
  intros _ _ H. qbool.
  destruct (Qlt_le_dec x b) as [L|L]; [left; qbool; exact L|].
  right. qbool. destruct (Qlt_le_dec b x) as [L'|L']; [exact L'|].
  exfalso. apply H. lra.
Qed.

(** X2. In a call of any of the three functions the two returned frames
    together never hold more rows than the input. They hold exactly the
    input's rows when both bounds are numbers and every row's value is a
    number different from both bounds. *)
Theorem rows_accounted_for (ln sqrt : Q -> Q) (data : DataFrame) (feature : string)
  (left right : float64) (log_scale : bool) (l : locals) :
  run_of ln sqrt data feature left right log_scale l ->
  (List.length (rows (outliers l)) + List.length (rows (cleaned l)) <=
   List.length (rows data))%nat /\
  (isnan (lower_bound l) = false -> isnan (upper_bound l) = false ->
   Forall (fun x => isnan x = false /\ feqb x (lower_bound l) = false /\
                    feqb x (upper_bound l) = false) (loc_x l) ->
   (List.length (rows (outliers l)) + List.length (rows (cleaned l)) =
    List.length (rows data))%nat).
Proof.
  intros Hrun. apply run_of_partition in Hrun. destruct Hrun as (j & Hj & Hl).
  set (lb := lower_bound l) in *. set (ub := upper_bound l) in *.
  assert (Hx : loc_x l = map (row_x ln j log_scale) (rows data)) by now rewrite Hl.
  assert (Ho : rows (outliers l) =
               filter (fun r => (fltb (row_x ln j log_scale r) lb ||
                                 fgtb (row_x ln j log_scale r) ub)%bool) (rows data))
    by (rewrite Hl at 1; apply partition_outliers).
  assert (Hc : rows (cleaned l) =
               filter (fun r => (fgtb (row_x ln j log_scale r) lb &&
                                 fltb (row_x ln j log_scale r) ub)%bool) (rows data))
    by (rewrite Hl at 1; apply partition_cleaned).
  rewrite Ho, Hc.
  assert (D : forall r, In r (rows data) ->
     ((fltb (row_x ln j log_scale r) lb || fgtb (row_x ln j log_scale r) ub) &&
      (fgtb (row_x ln j log_scale r) lb && fltb (row_x ln j log_scale r) ub))%bool = false).
  { intros r _. unfold fgtb.
    destruct (fltb (row_x ln j log_scale r) lb) eqn:E1; simpl.
    - now rewrite (fltb_asym _ _ E1).
    - destruct (fltb ub (row_x ln j log_scale r)) eqn:E2; simpl; [|reflexivity].
      rewrite (fltb_asym _ _ E2). apply andb_false_r. }
  split; [now apply filter_disjoint_length|].
  intros Nl Nu Hall. apply filter_cover_length; [exact D|].
  intros r Hr. rewrite Hx, Forall_forall in Hall.
  destruct (Hall (row_x ln j log_scale r)) as (Nx & El & Eu);
    [apply in_map; exact Hr|].
  unfold fgtb.
  destruct (number_trichotomy _ _ Nx Nl El) as [H1|H1]; [now rewrite H1|].
  destruct (number_trichotomy _ _ Nx Nu Eu) as [H2|H2].
  - rewrite H1, H2. simpl. apply orb_true_r.
  - rewrite H2. simpl. now rewrite orb_true_r.
Qed.

Lemma rows_accounted_for_witness :
  exists l,
    run_of ln_approx sqrt_approx scenario_a "value" (Fin (3 # 2)) (Fin (3 # 2)) false l /\
    isnan (lower_bound l) = false /\ isnan (upper_bound l) = false /\
    Forall (fun x => isnan x = false /\ feqb x (lower_bound l) = false /\
                     feqb x (upper_bound l) = false) (loc_x l) /\
    (List.length (rows (outliers l)) + List.length (rows (cleaned l)) =
     List.length (rows scenario_a))%nat.
Proof.
  eexists.
  assert (R : run_of ln_approx sqrt_approx scenario_a "value" (Fin (3 # 2)) (Fin (3 # 2))
                false _) by (left; vm_compute; reflexivity).
  split; [exact R|].
  assert (Nl : isnan (Fin (-1280 # 640)) = false) by reflexivity.
  assert (Nu : isnan (Fin (6400 # 640)) = false) by reflexivity.
  split; [exact Nl|]. split; [exact Nu|].
  match goal with |- ?F /\ _ => assert (HF : F) by (repeat constructor) end.
  split; [exact HF|].
  exact (proj2 (rows_accounted_for _ _ _ _ _ _ _ _ R) Nl Nu HF).
Defined.

(** ** Missing values *)

(** X3. In a call of any of the three functions a row whose value is
    missing (NaN, in the data or after the logarithm) is in neither
    returned frame, whatever the bounds. *)
Theorem missing_value_in_neither (ln sqrt : Q -> Q) (data : DataFrame)
  (feature : string) (left right : float64) (log_scale : bool) (l : locals) (j : nat)
  (r : Row) :
  run_of ln sqrt data feature left right log_scale l ->
  index_of feature (columns data) = Some j ->
  isnan (row_x ln j log_scale r) = true ->
  ~ In r (rows (outliers l)) /\ ~ In r (rows (cleaned l)).
Proof.
  intros Hrun Hj Hnan.
  destruct (run_of_members _ _ _ _ _ _ _ _ _ Hrun Hj r) as [Ho Hc].
  rewrite Ho, Hc. unfold fgtb.
  destruct (row_x ln j log_scale r); try discriminate.
  rewrite !fltb_nan_r. simpl.
  split; intros [_ H]; try destruct H; discriminate.
Qed.

Lemma missing_value_in_neither_witness :
  exists l,
    run_of ln_approx sqrt_approx with_missing "v" (Fin 1) (Fin 1) false l /\
    index_of "v" (columns with_missing) = Some 0%nat /\
    isnan (row_x ln_approx 0 false (mkRow 1 [NaN])) = true /\
    In (mkRow 1 [NaN]) (rows with_missing) /\
    ~ In (mkRow 1 [NaN]) (rows (outliers l)) /\ ~ In (mkRow 1 [NaN]) (rows (cleaned l)).
Proof.
  eexists.
  assert (R : run_of ln_approx sqrt_approx with_missing "v" (Fin 1) (Fin 1) false _)
    by (left; vm_compute; reflexivity).
  split; [exact R|]. split; [reflexivity|]. split; [reflexivity|].
  split; [right; left; reflexivity|].
  exact (missing_value_in_neither _ _ _ _ _ _ _ _ 0%nat (mkRow 1 [NaN]) R
           eq_refl eq_refl).
Defined.

(** ** Calls written out, and bounds that are equal as numbers *)

Lemma partition_frames (data : DataFrame) (f : Row -> float64) (lower upper : float64) :
  outliers (partition data (map f (rows data)) lower upper) =
  mkDataFrame (columns data)
    (filter (fun r => (fltb (f r) lower || fgtb (f r) upper)%bool) (rows data)) /\
  cleaned (partition data (map f (rows data)) lower upper) =
  mkDataFrame (columns data)
    (filter (fun r => (fgtb (f r) lower && fltb (f r) upper)%bool) (rows data)).
Proof.
  unfold partition, boolean_index, series_lt, series_gt. simpl.
  rewrite !map_map, mask_or_map, mask_and_map, !select_rows_map. auto.
Qed.

Lemma iqr_locals_some (ln : Q -> Q) (data : DataFrame) (feature : string)
  (left right : float64) (log_scale : bool) (j : nat) :
  index_of feature (columns data) = Some j ->
  iqr_locals ln data feature left right log_scale =
  Ok (partition data (map (row_x ln j log_scale) (rows data))
        (fsub (nanpercentile (map (row_x ln j log_scale) (rows data)) (1 # 4))
           (fmul (fsub (nanpercentile (map (row_x ln j log_scale) (rows data)) (3 # 4))
                    (nanpercentile (map (row_x ln j log_scale) (rows data)) (1 # 4)))
              left))
        (fadd (nanpercentile (map (row_x ln j log_scale) (rows data)) (3 # 4))
           (fmul (fsub (nanpercentile (map (row_x ln j log_scale) (rows data)) (3 # 4))
                    (nanpercentile (map (row_x ln j log_scale) (rows data)) (1 # 4)))
              right))).
Proof.
  intros Hj. unfold iqr_locals. now rewrite (feature_values_ok _ _ _ _ _ Hj).
Qed.

Lemma quantile_locals_some (ln : Q -> Q) (data : DataFrame) (feature : string)
  (left right : float64) (j : nat) :
  index_of feature (columns data) = Some j ->
  quantile_locals data feature left right =
  bind (quantile (map (row_x ln j false) (rows data)) left) (fun lower =>
  bind (quantile (map (row_x ln j false) (rows data)) right) (fun upper =>
  Ok (partition data (map (row_x ln j false) (rows data)) lower upper))).
Proof.
  intros Hj. unfold quantile_locals. now rewrite (getitem_ok ln _ _ _ Hj).
Qed.

Lemma fltb_feqb_r (x b b' : float64) : feqb b b' = true -> fltb x b = fltb x b'.
Proof.
  destruct x as [| |x|], b as [| |b|], b' as [| |b'|]; simpl; try discriminate;
    try reflexivity.
  intros H. qbool.
  destruct (Qltb x b) eqn:E1, (Qltb x b') eqn:E2; try reflexivity; qbool; lra.
Qed.

Lemma fltb_feqb_l (x b b' : float64) : feqb b b' = true -> fltb b x = fltb b' x.
Proof.
  destruct x as [| |x|], b as [| |b|], b' as [| |b'|]; simpl; try discriminate;
    try reflexivity.
  intros H. qbool.
  destruct (Qltb b x) eqn:E1, (Qltb b' x) eqn:E2; try reflexivity; qbool; lra.
Qed.

Lemma partition_feqb (data : DataFrame) (f : Row -> float64) (lb lb' ub ub' : float64) :
  (feqb lb lb' = true \/ (lb = NaN /\ lb' = NaN)) ->
  (feqb ub ub' = true \/ (ub = NaN /\ ub' = NaN)) ->
  outliers (partition data (map f (rows data)) lb ub) =
  outliers (partition data (map f (rows data)) lb' ub') /\
  cleaned (partition data (map f (rows data)) lb ub) =
  cleaned (partition data (map f (rows data)) lb' ub').
Proof.
  intros Hl Hu.
  assert (El : forall x, fltb x lb = fltb x lb' /\ fltb lb x = fltb lb' x).
  { intros x. destruct Hl as [H|[-> ->]]; [|auto].
    split; [now apply fltb_feqb_r | now apply fltb_feqb_l]. }
  assert (Eu : forall x, fltb x ub = fltb x ub' /\ fltb ub x = fltb ub' x).
  { intros x. destruct Hu as [H|[-> ->]]; [|auto].
    split; [now apply fltb_feqb_r | now apply fltb_feqb_l]. }
  destruct (partition_frames data f lb ub) as [-> ->].
  destruct (partition_frames data f lb' ub') as [-> ->].
  split; f_equal; apply filter_ext; intros r; unfold fgtb.
  - now rewrite (proj1 (El (f r))), (proj2 (Eu (f r))).
  - now rewrite (proj2 (El (f r))), (proj1 (Eu (f r))).
Qed.

(** ** The full range of probabilities *)

Lemma lerp_at_zero (a b : float64) (t : Q) :
  t == 0 -> lerp a b t = NaN \/ feqb (lerp a b t) a = true.
Proof.
  intros Ht. unfold lerp, fsub.
  destruct (Qle_bool (1 # 2) t) eqn:E; qbool; [exfalso; lra|].
  destruct a as [| |a|], b as [| |b|]; simpl; auto;
    unfold inf_times; try (sign_cases t; simpl; auto; exfalso; lra).
  right. qbool. rewrite Ht. ring.
Qed.

(** At a probability whose virtual index is a whole number the percentile
    is the array element at that index, or NaN. *)
Lemma percentile_at_index (s : Series) (p : Q) (k : Z) :
  inject_Z (Z.of_nat (List.length s - 1)) * p == inject_Z k ->
  percentile_linear s p = NaN \/
  feqb (percentile_linear s p) (nth (Z.to_nat k) s NaN) = true.
Proof.
  intros Hk.
  assert (Hf : Qfloor (inject_Z (Z.of_nat (List.length s - 1)) * p) = k)
    by (rewrite Hk; apply Qfloor_Z).
  unfold percentile_linear. rewrite Hf. apply lerp_at_zero. rewrite Hk. ring.
Qed.

Lemma sorted_extremes (s : Series) (v : float64) :
  StronglySorted fle s -> Forall (fun w => isnan w = false) s -> In v s ->
  fle (nth 0 s NaN) v /\ fle v (nth (List.length s - 1) s NaN).
Proof.
  intros Hs Hn Hin. destruct (In_nth s v NaN Hin) as (i & Hi & <-).
  split; apply sorted_nth; try assumption; lia.
Qed.

(** With [left = 0] no present value is below the lower bound, and with
    [right = 1] none is above the upper bound: each bound is the extreme
    value or NaN. *)
Lemma extreme_percentiles (x : Series) (v : float64) :
  In v x -> fltb v (nanpercentile x 0) = false /\ fltb (nanpercentile x 1) v = false.
Proof.
  intros Hv. destruct (isnan v) eqn:Nv.
  { destruct v; try discriminate. split; [reflexivity | apply fltb_nan_r]. }
  assert (Hd : In v (dropna x)) by (apply filter_In; split; [exact Hv | now rewrite Nv]).
  unfold nanpercentile. pose proof (dropna_not_nan x) as Hn.
  destruct (dropna x) as [|v0 vs] eqn:Ed; [destruct Hd|].
  set (s := sort_values (v0 :: vs)).
  assert (Ss : StronglySorted fle s) by (apply sort_values_sorted; exact Hn).
  assert (Ns : Forall (fun w => isnan w = false) s) by (apply sort_values_forall; exact Hn).
  assert (Is : In v s) by (unfold s; eapply Permutation_in; [apply sort_values_perm | exact Hd]).
  destruct (sorted_extremes s v Ss Ns Is) as [Lo Hi].
  split.
  - destruct (percentile_at_index s 0 0) as [->|E]; [ring | apply fltb_nan_r |].
    rewrite (fltb_feqb_r _ _ _ E). simpl Z.to_nat. now apply fleb_not_gt.
  - destruct (percentile_at_index s 1 (Z.of_nat (List.length s - 1))) as [->|E];
      [ring | reflexivity |].
    rewrite (fltb_feqb_l _ _ _ E), Nat2Z.id. now apply fleb_not_gt.
Qed.

(** X5. [find_outliers_quantile] with [left = 0] and [right = 1] returns
    no outliers, whatever the column holds: each bound is the extreme
    value of the column or NaN. *)
Theorem full_range_has_no_outliers (data : DataFrame) (feature : string) :
  In feature (columns data) ->
  exists l,
    quantile_locals data feature (Fin 0) (Fin 1) = Ok l /\
    find_outliers_quantile data feature (Fin 0) (Fin 1) = Ok (outliers l, cleaned l) /\
    rows (outliers l) = [].
Proof.
  intros Hin. destruct (index_of_some _ _ Hin) as [j Hj].
  set (x := map (row_x (fun q => q) j false) (rows data)).
  exists (partition data x (nanpercentile x 0) (nanpercentile x 1)).
  assert (Hq : quantile_locals data feature (Fin 0) (Fin 1) =
               Ok (partition data x (nanpercentile x 0) (nanpercentile x 1))).
  { rewrite (quantile_locals_some (fun q => q) _ _ _ _ _ Hj). fold x.
    rewrite !quantile_ok by lra. reflexivity. }
  split; [exact Hq|].
  split; [unfold find_outliers_quantile; now rewrite Hq|].
  unfold x at 1. rewrite partition_outliers. apply filter_nil_iff.
  intros r Hr. unfold fgtb.
  destruct (extreme_percentiles x (row_x (fun q => q) j false r)) as [-> ->];
    [unfold x; now apply in_map | reflexivity].
Qed.

Lemma full_range_has_no_outliers_witness :
  In "v" (columns with_infinity) /\
  exists l,
    quantile_locals with_infinity "v" (Fin 0) (Fin 1) = Ok l /\
    find_outliers_quantile with_infinity "v" (Fin 0) (Fin 1) = Ok (outliers l, cleaned l) /\
    rows (outliers l) = [].
Proof.
  assert (H : In "v" (columns with_infinity)) by (simpl; left; reflexivity).
  split; [exact H|].
  exact (full_range_has_no_outliers with_infinity "v" H).
Defined.

(** ** Non-negative multipliers *)

(** Case analysis on the sign of a multiplier, whether or not an infinity
    is multiplied by it in the goal. *)
Ltac sign_split t :=
  let E := fresh "Esign" in
  let H := fresh "Hsign" in
  destruct (Qcompare_cases t 0) as [[E H]|[[E H]|[E H]]]; try rewrite E in *.

(** With non-negative multipliers the lower bound stays at or below the
    lower centre and the upper bound at or above the upper centre. *)
Lemma bounds_bracket (c c' s x : float64) (l r : Q) :
  spread s -> 0 <= l -> 0 <= r ->
  (fle c x ->
   fltb x (fsub c (fmul s (Fin l))) = false /\ fltb x (fsub c (fmul (Fin l) s)) = false) /\
  (fle x c' ->
   fltb (fadd c' (fmul s (Fin r))) x = false /\ fltb (fadd c' (fmul (Fin r) s)) x = false).
Proof.
  unfold fle, fsub. intros Hs Hl Hr.
  destruct c as [| |c|], c' as [| |c'|], s as [| |s|], x as [| |x|]; simpl in *;
    try contradiction;
    unfold inf_times; sign_split l; sign_split r; simpl;
    (split; intros H; split; try reflexivity; try discriminate; qbool; try lra; nra).
Qed.

Lemma bounds_ordered (c c' s : float64) (l r : Q) :
  spread s -> 0 <= l -> 0 <= r ->
  (isnan c = false -> isnan c' = false -> fle c c') ->
  (isnan (fsub c (fmul s (Fin l))) = false ->
   isnan (fadd c' (fmul s (Fin r))) = false ->
   fle (fsub c (fmul s (Fin l))) (fadd c' (fmul s (Fin r)))) /\
  (isnan (fsub c (fmul (Fin l) s)) = false ->
   isnan (fadd c' (fmul (Fin r) s)) = false ->
   fle (fsub c (fmul (Fin l) s)) (fadd c' (fmul (Fin r) s))).
Proof.
  unfold fle, fsub. intros Hs Hl Hr Hc.
  destruct c as [| |c|], c' as [| |c'|], s as [| |s|]; simpl in *;
    try contradiction;
    try (specialize (Hc eq_refl eq_refl));
    unfold inf_times; sign_split l; sign_split r; simpl;
    (split; intros H1 H2; try reflexivity; try discriminate; qbool; try lra; nra).
Qed.

Lemma boundary_neither (x lower upper : float64) :
  (isnan lower = false -> isnan upper = false -> fle lower upper) ->
  feqb x lower = true \/ feqb x upper = true ->
  fltb x lower = false /\ fltb upper x = false.
Proof.
  intros Hle Heq.
  destruct (isnan lower) eqn:Nl; [destruct lower; try discriminate|].
  - destruct Heq as [H|H]; [destruct x; discriminate|].
    split; [apply fltb_nan_r | now apply feqb_not_lt in H].
  - destruct (isnan upper) eqn:Nu; [destruct upper; try discriminate|].
    + destruct Heq as [H|H]; [|destruct x; discriminate].
      split; [now apply feqb_not_lt in H | reflexivity].
    + apply at_bound_not_beyond; [apply Hle; reflexivity | exact Heq].
Qed.

Lemma spread_fle (a b : float64) :
  spread (fsub b a) -> isnan a = false -> isnan b = false -> fle a b.
Proof.
  unfold fle, fsub.
  destruct a as [| |a|], b as [| |b|]; simpl; try discriminate; try contradiction; auto.
  intros H _ _. qbool. lra.
Qed.

(** X6. With non-negative finite multipliers the bounds of
    [find_outliers_z_score] are never inverted (the square root being
    non-negative), and neither are those of [find_outliers_iqr] as long as
    the interquartile range the call computes is not negative; a row whose
    value equals a bound is then in neither returned frame. *)
Theorem nonnegative_multipliers_keep_order (ln sqrt : Q -> Q) (data : DataFrame)
  (feature : string) (left right : Q) (log_scale : bool) (l : locals) :
  (forall q, 0 <= q -> 0 <= sqrt q) -> 0 <= left -> 0 <= right ->
  (iqr_locals ln data feature (Fin left) (Fin right) log_scale = Ok l /\
   exists q1 q3, quartiles (loc_x l) = Ok (q1, q3) /\ spread (fsub q3 q1)) \/
  z_score_locals ln sqrt data feature (Fin left) (Fin right) log_scale = Ok l ->
  (isnan (lower_bound l) = false -> isnan (upper_bound l) = false ->
   fle (lower_bound l) (upper_bound l)) /\
  exists j, index_of feature (columns data) = Some j /\
    forall r, In r (rows data) ->
      feqb (row_x ln j log_scale r) (lower_bound l) = true \/
      feqb (row_x ln j log_scale r) (upper_bound l) = true ->
      ~ In r (rows (outliers l)) /\ ~ In r (rows (cleaned l)).
Proof.
  intros Hsqrt Hl Hr Hrun.
  assert (Hord : isnan (lower_bound l) = false -> isnan (upper_bound l) = false ->
                 fle (lower_bound l) (upper_bound l)).
  { destruct Hrun as [(H & q1 & q3 & Hq & Hs)|H].
    - apply iqr_locals_inv in H. destruct H as (j & _ & H). cbv zeta in H.
      rewrite H in Hq |- *. unfold partition in Hq |- *.
      cbn [loc_x lower_bound upper_bound] in Hq |- *.
      rewrite quartiles_ok in Hq. injection Hq as <- <-.
      apply bounds_ordered; try assumption. now apply spread_fle.
    - apply z_score_locals_inv in H. destruct H as (j & _ & H). cbv zeta in H.
      rewrite H. simpl.
      apply bounds_ordered; try assumption; [now apply spread_np_sqrt|].
      intros N _. now apply fleb_refl. }
  split; [exact Hord|].
  assert (R : run_of ln sqrt data feature (Fin left) (Fin right) log_scale l)
    by (destruct Hrun as [[H _]|H]; [left | right; left]; assumption).
  destruct (run_of_partition _ _ _ _ _ _ _ _ R) as (j & Hj & _).
  exists j. split; [exact Hj|]. intros r Hin Heq.
  destruct (run_of_members _ _ _ _ _ _ _ _ _ R Hj r) as [Ho Hc].
  destruct (boundary_neither _ _ _ Hord Heq) as [B1 B2].
  rewrite Ho, Hc. unfold fgtb. split.
  - intros [_ [H|H]]; congruence.
  - intros [_ [H1 H2]].
    destruct Heq as [E|E]; apply feqb_not_lt in E; destruct E; congruence.
Qed.

Lemma nonnegative_multipliers_keep_order_witness :
  (forall q, 0 <= q -> 0 <= sqrt_approx q) /\ 0 <= 3 # 2 /\
  exists l q1 q3,
    iqr_locals ln_approx all_sevens "v" (Fin (3 # 2)) (Fin (3 # 2)) false = Ok l /\
    quartiles (loc_x l) = Ok (q1, q3) /\ spread (fsub q3 q1) /\
    fle (lower_bound l) (upper_bound l) /\
    In (mkRow 0 [Fin 7]) (rows all_sevens) /\
    feqb (row_x ln_approx 0 false (mkRow 0 [Fin 7])) (lower_bound l) = true /\
    ~ In (mkRow 0 [Fin 7]) (rows (outliers l)) /\
    ~ In (mkRow 0 [Fin 7]) (rows (cleaned l)).
Proof.
  assert (H0 : 0 <= 3 # 2) by (unfold Qle; simpl; lia).
  split; [exact sqrt_approx_nonneg|]. split; [exact H0|].
  do 3 eexists.
  assert (R : iqr_locals ln_approx all_sevens "v" (Fin (3 # 2)) (Fin (3 # 2)) false = Ok _)
    by (vm_compute; reflexivity).
  split; [exact R|].
  assert (Hq : quartiles [Fin 7; Fin 7; Fin 7] = Ok (_, _)) by (vm_compute; reflexivity).
  split; [exact Hq|].
  match goal with |- ?S /\ _ => assert (Hs : S) by (simpl; unfold Qle; simpl; lia) end.
  split; [exact Hs|].
  destruct (nonnegative_multipliers_keep_order ln_approx sqrt_approx all_sevens "v"
              (3 # 2) (3 # 2) false _ sqrt_approx_nonneg H0 H0
              (or_introl (conj R (ex_intro _ _ (ex_intro _ _ (conj Hq Hs))))))
    as (Hord & j & Hj & Hrows).
  vm_compute in Hj. injection Hj as <-.
  assert (Hin : In (mkRow 0 [Fin 7]) (rows all_sevens)) by (left; reflexivity).
  split; [apply Hord; reflexivity|]. split; [exact Hin|]. split; [reflexivity|].
  apply Hrows; [exact Hin | left; reflexivity].
Defined.

(** X7. With non-negative finite multipliers [find_outliers_iqr] never
    returns as an outlier a row whose value lies between the two quartiles
    (inclusive), and [find_outliers_z_score] never returns a row whose
    value equals the mean. *)
Theorem middle_is_never_an_outlier (ln sqrt : Q -> Q) (data : DataFrame)
  (feature : string) (left right : Q) (log_scale : bool) (j : nat) (r : Row) :
  (forall q, 0 <= q -> 0 <= sqrt q) -> 0 <= left -> 0 <= right ->
  index_of feature (columns data) = Some j ->
  (forall l q1 q3,
      iqr_locals ln data feature (Fin left) (Fin right) log_scale = Ok l ->
      quartiles (loc_x l) = Ok (q1, q3) ->
      fle q1 (row_x ln j log_scale r) -> fle (row_x ln j log_scale r) q3 ->
      ~ In r (rows (outliers l))) /\
  (forall l,
      z_score_locals ln sqrt data feature (Fin left) (Fin right) log_scale = Ok l ->
      feqb (row_x ln j log_scale r) (mean (loc_x l)) = true ->
      ~ In r (rows (outliers l))).
Proof.
  intros Hsqrt Hl Hr Hj. split.
  - intros l q1 q3 H Hq H1 H3.
    assert (R : run_of ln sqrt data feature (Fin left) (Fin right) log_scale l)
      by (left; exact H).
    destruct (run_of_members _ _ _ _ _ _ _ _ _ R Hj r) as [Ho _]. rewrite Ho.
    apply iqr_locals_inv in H. destruct H as (j' & Hj' & H). cbv zeta in H.
    assert (j' = j) by congruence. subst j'.
    rewrite H in Hq |- *. unfold partition in Hq |- *.
    cbn [lower_bound upper_bound loc_x] in Hq |- *.
    rewrite quartiles_ok in Hq. injection Hq as <- <-.
    set (x := map (row_x ln j log_scale) (rows data)) in *.
    assert (Hs : spread (fsub (nanpercentile x (3 # 4)) (nanpercentile x (1 # 4)))).
    { apply spread_of_fle. intros _ _. exact (fleb_trans _ _ _ H1 H3). }
    destruct (bounds_bracket (nanpercentile x (1 # 4)) (nanpercentile x (3 # 4)) _
                (row_x ln j log_scale r) left right Hs Hl Hr) as [B1 B3].
    destruct (B1 H1) as [E1 _]. destruct (B3 H3) as [E3 _].
    unfold fgtb. intros [_ [E|E]]; congruence.
  - intros l H Heq.
    assert (R : run_of ln sqrt data feature (Fin left) (Fin right) log_scale l)
      by (right; left; exact H).
    destruct (run_of_members _ _ _ _ _ _ _ _ _ R Hj r) as [Ho _]. rewrite Ho.
    apply z_score_locals_inv in H. destruct H as (j' & Hj' & H). cbv zeta in H.
    assert (j' = j) by congruence. subst j'.
    rewrite H in Heq |- *. unfold partition in Heq |- *.
    cbn [lower_bound upper_bound loc_x] in Heq |- *.
    set (x := map (row_x ln j log_scale) (rows data)) in *.
    pose proof (spread_np_sqrt sqrt (var x) Hsqrt) as Hs. fold (std sqrt x) in Hs.
    assert (L1 : fle (mean x) (row_x ln j log_scale r) /\
                 fle (row_x ln j log_scale r) (mean x)).
    { unfold fle. destruct (row_x ln j log_scale r), (mean x); simpl in *;
        try discriminate; auto. split; qbool; lra. }
    destruct (bounds_bracket (mean x) (mean x) _
                (row_x ln j log_scale r) left right Hs Hl Hr) as [B1 B3].
    destruct (B1 (proj1 L1)) as [_ E1]. destruct (B3 (proj2 L1)) as [_ E3].
    unfold fgtb. intros [_ [E|E]]; congruence.
Qed.

Lemma middle_is_never_an_outlier_witness :
  (forall q, 0 <= q -> 0 <= sqrt_approx q) /\ 0 <= 0 /\
  index_of "v" (columns spread_out) = Some 0%nat /\
  exists l q1 q3,
    iqr_locals ln_approx spread_out "v" (Fin 0) (Fin 0) false = Ok l /\
    quartiles (loc_x l) = Ok (q1, q3) /\
    fle q1 (row_x ln_approx 0 false (mkRow 3 [Fin 3])) /\
    fle (row_x ln_approx 0 false (mkRow 3 [Fin 3])) q3 /\
    In (mkRow 3 [Fin 3]) (rows spread_out) /\
    ~ In (mkRow 3 [Fin 3]) (rows (outliers l)).
Proof.
  assert (H0 : 0 <= 0) by (unfold Qle; simpl; lia).
  split; [exact sqrt_approx_nonneg|]. split; [exact H0|]. split; [reflexivity|].
  do 3 eexists.
  assert (R : iqr_locals ln_approx spread_out "v" (Fin 0) (Fin 0) false = Ok _)
    by (vm_compute; reflexivity).
  split; [exact R|].
  assert (Hq : quartiles [Fin (-40); Fin 1; Fin 2; Fin 3; Fin 4; Fin 5; Fin 6; Fin 30] =
               Ok (_, _)) by (vm_compute; reflexivity).
  split; [exact Hq|].
  assert (H1 : fle (Fin (7 # 4)) (Fin 3)) by reflexivity.
  assert (H3 : fle (Fin 3) (Fin (21 # 4))) by reflexivity.
  split; [exact H1|]. split; [exact H3|].
  split; [do 3 right; left; reflexivity|].
  exact (proj1 (middle_is_never_an_outlier ln_approx sqrt_approx spread_out "v" 0 0 false
                  0%nat (mkRow 3 [Fin 3]) sqrt_approx_nonneg H0 H0 eq_refl)
           _ _ _ R Hq H1 H3).
Defined.

(** ** Widening the multipliers, row by row *)

Lemma lower_monotone (c s x : float64) (l l' : Q) :
  spread s -> l <= l' ->
  (fgtb x (fsub c (fmul s (Fin l))) = true -> fgtb x (fsub c (fmul s (Fin l'))) = true) /\
  (fgtb x (fsub c (fmul (Fin l) s)) = true -> fgtb x (fsub c (fmul (Fin l') s)) = true).
Proof.
  unfold fgtb, fsub. intros Hs Hl.
  destruct c as [| |c|], s as [| |s|], x as [| |x|]; simpl in *;
    try contradiction;
    unfold inf_times; sign_split l; sign_split l'; simpl;
    (split; intros H; try reflexivity; try discriminate; qbool; try lra; nra).
Qed.

Lemma upper_monotone (c s x : float64) (r r' : Q) :
  spread s -> r <= r' ->
  (fltb x (fadd c (fmul s (Fin r))) = true -> fltb x (fadd c (fmul s (Fin r'))) = true) /\
  (fltb x (fadd c (fmul (Fin r) s)) = true -> fltb x (fadd c (fmul (Fin r') s)) = true).
Proof.
  intros Hs Hr.
  destruct c as [| |c|], s as [| |s|], x as [| |x|]; simpl in *;
    try contradiction;
    unfold inf_times; sign_split r; sign_split r'; simpl;
    (split; intros H; try reflexivity; try discriminate; qbool; try lra; nra).
Qed.

Lemma filter_incl {A : Type} (p q : A -> bool) (l : list A) :
  (forall a, p a = true -> q a = true) -> incl (filter p l) (filter q l).
Proof.
  intros H a Ha. apply filter_In in Ha. apply filter_In.
  split; [tauto | apply H; tauto].
Qed.

(** X8. Raising [left] or [right] (finite) in [find_outliers_z_score], or
    in [find_outliers_iqr] as long as the interquartile range the call
    computes is not negative, only moves rows out of the outliers: every
    outlier of the wider call is an outlier of the narrower one, and every
    cleaned row of the narrower call is a cleaned row of the wider one. *)
Theorem widening_moves_rows_one_way (ln sqrt : Q -> Q) (data : DataFrame)
  (feature : string) (log_scale : bool) (l l' r r' : Q) :
  (forall q, 0 <= q -> 0 <= sqrt q) ->
  l <= l' -> r <= r' ->
  (forall x q1 q3 o c o' c',
      feature_values ln data feature log_scale = Ok x ->
      quartiles x = Ok (q1, q3) -> spread (fsub q3 q1) ->
      find_outliers_iqr ln data feature (Fin l) (Fin r) log_scale = Ok (o, c) ->
      find_outliers_iqr ln data feature (Fin l') (Fin r') log_scale = Ok (o', c') ->
      incl (rows o') (rows o) /\ incl (rows c) (rows c')) /\
  (forall o c o' c',
      find_outliers_z_score ln sqrt data feature (Fin l) (Fin r) log_scale = Ok (o, c) ->
      find_outliers_z_score ln sqrt data feature (Fin l') (Fin r') log_scale = Ok (o', c') ->
      incl (rows o') (rows o) /\ incl (rows c) (rows c')).
Proof.
  intros Hsqrt Hl Hr. split.
  - intros x q1 q3 o c o' c' Hx Hq Hs H H'.
    apply find_outliers_iqr_inv in H, H'.
    destruct H as (loc & H & -> & ->), H' as (loc' & H' & -> & ->).
    apply iqr_locals_inv in H, H'.
    destruct H as (j & Hj & H), H' as (j' & Hj' & H').
    assert (j' = j) by congruence. subst j'. cbv zeta in H, H'. subst loc loc'.
    rewrite (feature_values_ok _ _ _ _ _ Hj) in Hx. injection Hx as <-.
    rewrite quartiles_ok in Hq. injection Hq as <- <-.
    rewrite !partition_outliers, !partition_cleaned.
    split; apply filter_incl; intros row Hrow.
    + apply orb_true_iff in Hrow. apply orb_true_iff.
      destruct Hrow as [Hrow|Hrow].
      * left. revert Hrow. now apply lower_antitone.
      * right. revert Hrow. now apply upper_antitone.
    + apply andb_true_iff in Hrow. apply andb_true_iff.
      destruct Hrow as [H1 H2]. split.
      * revert H1. now apply lower_monotone.
      * revert H2. now apply upper_monotone.
  - intros o c o' c' H H'.
    apply find_outliers_z_score_inv in H, H'.
    destruct H as (loc & H & -> & ->), H' as (loc' & H' & -> & ->).
    apply z_score_locals_inv in H, H'.
    destruct H as (j & Hj & H), H' as (j' & Hj' & H').
    assert (j' = j) by congruence. subst j'. cbv zeta in H, H'. subst loc loc'.
    rewrite !partition_outliers, !partition_cleaned.
    pose proof (spread_np_sqrt sqrt (var (map (row_x ln j log_scale) (rows data))) Hsqrt)
      as Hs.
    fold (std sqrt (map (row_x ln j log_scale) (rows data))) in Hs.
    split; apply filter_incl; intros row Hrow.
    + apply orb_true_iff in Hrow. apply orb_true_iff.
      destruct Hrow as [Hrow|Hrow].
      * left. revert Hrow. now apply lower_antitone.
      * right. revert Hrow. now apply upper_antitone.
    + apply andb_true_iff in Hrow. apply andb_true_iff.
      destruct Hrow as [H1 H2]. split.
      * revert H1. now apply lower_monotone.
      * revert H2. now apply upper_monotone.
Qed.

Lemma widening_moves_rows_one_way_witness :
  (forall q, 0 <= q -> 0 <= sqrt_approx q) /\ 1 # 10 <= 1 # 4 /\ 3 # 4 <= 9 # 10 /\
  exists x q1 q3 o c o' c',
    feature_values ln_approx spread_out "v" false = Ok x /\
    quartiles x = Ok (q1, q3) /\ spread (fsub q3 q1) /\
    find_outliers_iqr ln_approx spread_out "v" (Fin (1 # 10)) (Fin (3 # 4)) false =
    Ok (o, c) /\
    find_outliers_iqr ln_approx spread_out "v" (Fin (1 # 4)) (Fin (9 # 10)) false =
    Ok (o', c') /\
    In (mkRow 1 [Fin 1]) (rows o) /\ In (mkRow 1 [Fin 1]) (rows c') /\
    incl (rows o') (rows o) /\ incl (rows c) (rows c').
Proof.
  assert (Hl : 1 # 10 <= 1 # 4) by (unfold Qle; simpl; lia).
  assert (Hr : 3 # 4 <= 9 # 10) by (unfold Qle; simpl; lia).
  split; [exact sqrt_approx_nonneg|]. split; [exact Hl|]. split; [exact Hr|].
  do 7 eexists.
  assert (Hx : feature_values ln_approx spread_out "v" false = Ok _)
    by (vm_compute; reflexivity).
  split; [exact Hx|].
  assert (Hq : quartiles [Fin (-40); Fin 1; Fin 2; Fin 3; Fin 4; Fin 5; Fin 6; Fin 30] =
               Ok (_, _)) by (vm_compute; reflexivity).
  split; [exact Hq|].
  match goal with |- ?S /\ _ => assert (Hs : S) by (simpl; unfold Qle; simpl; lia) end.
  split; [exact Hs|].
  assert (E : find_outliers_iqr ln_approx spread_out "v" (Fin (1 # 10)) (Fin (3 # 4))
                false = Ok (_, _)) by (vm_compute; reflexivity).
  assert (E' : find_outliers_iqr ln_approx spread_out "v" (Fin (1 # 4)) (Fin (9 # 10))
                 false = Ok (_, _)) by (vm_compute; reflexivity).
  split; [exact E|]. split; [exact E'|].
  split; [right; left; reflexivity|]. split; [left; reflexivity|].
  exact (proj1 (widening_moves_rows_one_way ln_approx sqrt_approx spread_out "v" false
                  (1 # 10) (1 # 4) (3 # 4) (9 # 10) sqrt_approx_nonneg Hl Hr)
           _ _ _ _ _ _ _ Hx Hq Hs E E').
Defined.

(** ** A constant column *)

Lemma constant_percentile (x : Series) (c p : Q) :
  Forall (fun v => v = Fin c \/ isnan v = true) x -> 0 <= p <= 1 ->
  nanpercentile x p = NaN \/ exists v, nanpercentile x p = Fin v /\ v == c.
Proof.
  intros Hx Rp. unfold nanpercentile.
  assert (Hd : Forall (fun v => v = Fin c) (dropna x)).
  { apply Forall_forall. intros v Hv. apply filter_In in Hv.
    destruct Hv as [Hin Hv]. rewrite Forall_forall in Hx.
    destruct (Hx v Hin) as [E|E]; [exact E | rewrite E in Hv; discriminate]. }
  destruct (dropna x) as [|v0 vs]; [now left|]. right.
  set (s := sort_values (v0 :: vs)).
  assert (Hs : Forall (fun v => v = Fin c) s) by now apply sort_values_forall.
  assert (Ls : (0 < List.length s)%nat)
    by (unfold s; rewrite sort_values_length; simpl; lia).
  pose proof (previous_range s p Rp) as Pp.
  unfold percentile_linear.
  assert (Fi : forall i, (i < List.length s)%nat -> nth i s NaN = Fin c).
  { intros i Hi. rewrite Forall_forall in Hs. apply Hs, nth_In, Hi. }
  rewrite !Fi by lia.
  match goal with |- exists v, lerp _ _ ?t = Fin v /\ _ =>
    destruct (lerp_fin c c t) as (v & -> & Ev) end.
  exists v. split; [reflexivity|]. rewrite Ev. ring.
Qed.

Lemma on_the_bound (b : float64) (c : Q) :
  b = NaN \/ (exists v, b = Fin v /\ v == c) ->
  fltb (Fin c) b = false /\ fltb b (Fin c) = false.
Proof.
  intros [->|(v & -> & E)]; simpl; [auto|]. split; qbool; lra.
Qed.

(** X10. On a column whose present values are all the same number,
    [find_outliers_iqr] (finite multipliers) and [find_outliers_quantile]
    return two empty frames: both bounds collapse to that number and every
    row sits on them. *)
Theorem constant_column_gives_empty_frames (ln : Q -> Q) (data : DataFrame)
  (feature : string) (left right : Q) (log_scale : bool) (c : Q) (l : locals) :
  Forall (fun v => v = Fin c \/ isnan v = true) (loc_x l) ->
  iqr_locals ln data feature (Fin left) (Fin right) log_scale = Ok l \/
  quantile_locals data feature (Fin left) (Fin right) = Ok l ->
  no_rows l.
Proof.
  intros Hx Hrun.
  assert (Hb : exists j f,
             l = partition data (map f (rows data)) (lower_bound l) (upper_bound l) /\
             (forall r, In r (rows data) -> f r = Fin c \/ isnan (f r) = true) /\
             (lower_bound l = NaN \/ exists v, lower_bound l = Fin v /\ v == c) /\
             (upper_bound l = NaN \/ exists v, upper_bound l = Fin v /\ v == c) /\
             index_of feature (columns data) = Some j).
  { destruct Hrun as [H|H].
    - apply iqr_locals_inv in H. destruct H as (j & Hj & H). cbv zeta in H.
      exists j, (row_x ln j log_scale).
      rewrite H in Hx |- *. unfold partition in Hx |- *.
      cbn [loc_x lower_bound upper_bound] in Hx |- *.
      set (x := map (row_x ln j log_scale) (rows data)) in *.
      split; [reflexivity|].
      split; [intros r Hr; rewrite Forall_forall in Hx; apply Hx; unfold x;
              now apply in_map|].
      assert (R1 : 0 <= 1 # 4 <= 1) by lra. assert (R3 : 0 <= 3 # 4 <= 1) by lra.
      destruct (constant_percentile x c _ Hx R1) as [->|(v1 & -> & E1)];
        destruct (constant_percentile x c _ Hx R3) as [->|(v3 & -> & E3)];
        simpl; auto.
      repeat split; auto; right; eexists; (split; [reflexivity|]);
        rewrite E1, E3; ring.
    - apply quantile_locals_inv in H.
      destruct H as (j & p & q & Hj & [= <-] & [= <-] & Rp & Rq & _ & H).
      cbv zeta in H. exists j, (fun r => nth j (cells r) NaN).
      rewrite H in Hx |- *. unfold partition in Hx |- *.
      cbn [loc_x lower_bound upper_bound] in Hx |- *.
      set (x := map (fun r => nth j (cells r) NaN) (rows data)) in *.
      split; [reflexivity|].
      split; [intros r Hr; rewrite Forall_forall in Hx; apply (Hx (nth j (cells r) NaN));
              unfold x; apply in_map_iff; eauto|].
      split; [apply (constant_percentile x c _ Hx Rp)|].
      split; [apply (constant_percentile x c _ Hx Rq) | exact Hj]. }
  destruct Hb as (j & f & Hl & Hf & Lb & Ub & _).
  unfold no_rows. rewrite Hl, partition_outliers, partition_cleaned.
  split; apply filter_nil_iff; intros r Hr; unfold fgtb;
    destruct (Hf r Hr) as [E|E].
  - rewrite E. destruct (on_the_bound _ c Lb) as [-> _].
    destruct (on_the_bound _ c Ub) as [_ ->]. reflexivity.
  - destruct (f r); try discriminate. now rewrite fltb_nan_r.
  - rewrite E. destruct (on_the_bound _ c Lb) as [_ ->]. reflexivity.
  - destruct (f r); try discriminate. now rewrite fltb_nan_r, andb_false_r.
Qed.

Lemma constant_column_gives_empty_frames_witness :
  exists l,
    iqr_locals ln_approx all_sevens "v" (Fin (3 # 2)) (Fin (3 # 2)) false = Ok l /\
    Forall (fun v => v = Fin 7 \/ isnan v = true) (loc_x l) /\
    no_rows l.
Proof.
  eexists.
  assert (R : iqr_locals ln_approx all_sevens "v" (Fin (3 # 2)) (Fin (3 # 2)) false = Ok _)
    by (vm_compute; reflexivity).
  split; [exact R|].
  assert (F : Forall (fun v => v = Fin 7 \/ isnan v = true) [Fin 7; Fin 7; Fin 7])
    by (repeat (apply Forall_cons; [left; reflexivity|]); apply Forall_nil).
  split; [exact F|].
  apply (constant_column_gives_empty_frames ln_approx all_sevens "v" (3 # 2) (3 # 2)
           false 7); [exact F | left; exact R].
Defined.

(** ** Zero multipliers *)

(** X11. As long as the interquartile range the call computes is a finite
    number, [find_outliers_iqr] with both multipliers 0 and no log scale
    returns exactly what [find_outliers_quantile] returns for the
    probabilities 0.25 and 0.75; both raise the same KeyError when the
    column is missing. *)
Theorem zero_multipliers_cut_at_quartiles (ln : Q -> Q) (data : DataFrame)
  (feature : string) :
  (forall x q1 q3, getitem data feature = Ok x -> quartiles x = Ok (q1, q3) ->
                   isfinite (fsub q3 q1) = true) ->
  find_outliers_iqr ln data feature (Fin 0) (Fin 0) false =
  find_outliers_quantile data feature (Fin (1 # 4)) (Fin (3 # 4)).
Proof.
  intros Hfin.
  destruct (index_of feature (columns data)) as [j|] eqn:Hj.
  - unfold find_outliers_iqr, find_outliers_quantile.
    rewrite (iqr_locals_some _ _ _ _ _ _ _ Hj), (quantile_locals_some ln _ _ _ _ _ Hj).
    specialize (Hfin _ _ _ (getitem_ok ln _ _ _ Hj) (quartiles_ok _)).
    rewrite !quantile_ok by lra. unfold bind. f_equal.
    destruct (nanpercentile (map (row_x ln j false) (rows data)) (1 # 4)) as [| |v1|];
      destruct (nanpercentile (map (row_x ln j false) (rows data)) (3 # 4)) as [| |v3|];
      try discriminate.
    assert (Bl : feqb (fsub (Fin v1) (fmul (fsub (Fin v3) (Fin v1)) (Fin 0))) (Fin v1) =
                 true) by (simpl; qbool; ring).
    assert (Bu : feqb (fadd (Fin v3) (fmul (fsub (Fin v3) (Fin v1)) (Fin 0))) (Fin v3) =
                 true) by (simpl; qbool; ring).
    destruct (partition_feqb data (row_x ln j false) _ _ _ _ (or_introl Bl) (or_introl Bu))
      as [-> ->].
    reflexivity.
  - unfold find_outliers_iqr, find_outliers_quantile, iqr_locals, quantile_locals.
    now rewrite (feature_values_err _ _ _ _ Hj), (getitem_err _ _ Hj).
Qed.

Lemma zero_multipliers_cut_at_quartiles_witness :
  (forall x q1 q3, getitem spread_out "v" = Ok x -> quartiles x = Ok (q1, q3) ->
                   isfinite (fsub q3 q1) = true) /\
  find_outliers_iqr ln_approx spread_out "v" (Fin 0) (Fin 0) false =
  find_outliers_quantile spread_out "v" (Fin (1 # 4)) (Fin (3 # 4)) /\
  find_outliers_quantile spread_out "v" (Fin (1 # 4)) (Fin (3 # 4)) =
  Ok (mkDataFrame ["v"] [mkRow 0 [Fin (-40)]; mkRow 1 [Fin 1]; mkRow 6 [Fin 6];
                         mkRow 7 [Fin 30]],
      mkDataFrame ["v"] [mkRow 2 [Fin 2]; mkRow 3 [Fin 3]; mkRow 4 [Fin 4];
                         mkRow 5 [Fin 5]]).
Proof.
  assert (H : forall x q1 q3, getitem spread_out "v" = Ok x -> quartiles x = Ok (q1, q3) ->
                              isfinite (fsub q3 q1) = true).
  { intros x q1 q3 Hx Hq. vm_compute in Hx. injection Hx as <-.
    vm_compute in Hq. injection Hq as <- <-. reflexivity. }
  split; [exact H|].
  split; [exact (zero_multipliers_cut_at_quartiles ln_approx spread_out "v" H)|].
  vm_compute. reflexivity.
Defined.
